(** * Runner-type registrar (st2actions/bootstrap/runnersregistrar.py)

    A shallow embedding of [RUNNER_TYPES] and [register_runner_types], and the
    properties of the registration pass: which failures it absorbs and which
    it lets through, the experimental filter, identity of stored records,
    repeated registration, and what the pass does to the shared catalogue. *)

From stdpp Require Import base option list strings gmap fin_maps.
From Stdlib Require Import ZArith.

Local Open Scope string_scope.
Local Open Scope list_scope.
Set Warnings "-register-all".

(** ** Python values and dictionaries of the catalogue *)

(** The values that occur as parameter defaults: [True]/[False], integers,
    strings and dict literals. *)
Inductive pyval :=
| PyBool (b : bool)
| PyInt (n : Z)
| PyStr (s : string)
| PyDict (items : list (string * pyval)).

(** One entry of a ['runner_parameters'] dict.  The keys ['default'],
    ['required'] and ['immutable'] are optional in the source: [None] is an
    absent key. *)
Record ParameterSpec := {
  p_description : string;
  p_type : string;
  p_default : option pyval;
  p_required : option bool;
  p_immutable : option bool
}.

(** One entry of [RUNNER_TYPES].  ['experimental'] and ['query_module'] are
    optional keys; the others are present in every entry. *)
Record RunnerTypeDict := {
  name : string;
  description : string;
  enabled : bool;
  experimental : option bool;
  runner_parameters : list (string * ParameterSpec);
  runner_module : string;
  query_module : option string
}.

(** [runnertype.get('experimental', False)] *)
Definition get_experimental (runnertype : RunnerTypeDict) : bool :=
  default false (experimental runnertype).

(** [if 'experimental' in runnertype: del runnertype['experimental']] *)
Definition del_experimental (runnertype : RunnerTypeDict) : RunnerTypeDict :=
  match experimental runnertype with
  | Some _ =>
      {| name := name runnertype;
         description := description runnertype;
         enabled := enabled runnertype;
         experimental := None;
         runner_parameters := runner_parameters runnertype;
         runner_module := runner_module runnertype;
         query_module := query_module runnertype |}
  | None => runnertype
  end.

(** ** The catalogue *)

Definition param (description type : string) : ParameterSpec :=
  {| p_description := description; p_type := type;
     p_default := None; p_required := None; p_immutable := None |}.

Definition with_default (v : pyval) (p : ParameterSpec) : ParameterSpec :=
  {| p_description := p_description p; p_type := p_type p;
     p_default := Some v; p_required := p_required p;
     p_immutable := p_immutable p |}.

Definition with_required (b : bool) (p : ParameterSpec) : ParameterSpec :=
  {| p_description := p_description p; p_type := p_type p;
     p_default := p_default p; p_required := Some b;
     p_immutable := p_immutable p |}.

Definition with_immutable (b : bool) (p : ParameterSpec) : ParameterSpec :=
  {| p_description := p_description p; p_type := p_type p;
     p_default := p_default p; p_required := p_required p;
     p_immutable := Some b |}.

Definition runner (name description : string) (enabled : bool)
    (runner_parameters : list (string * ParameterSpec))
    (runner_module : string) : RunnerTypeDict :=
  {| name := name; description := description; enabled := enabled;
     experimental := None; runner_parameters := runner_parameters;
     runner_module := runner_module; query_module := None |}.

Definition with_experimental (b : bool) (r : RunnerTypeDict) : RunnerTypeDict :=
  {| name := name r; description := description r; enabled := enabled r;
     experimental := Some b; runner_parameters := runner_parameters r;
     runner_module := runner_module r; query_module := query_module r |}.

Definition with_query_module (m : string) (r : RunnerTypeDict) : RunnerTypeDict :=
  {| name := name r; description := description r; enabled := enabled r;
     experimental := experimental r; runner_parameters := runner_parameters r;
     runner_module := runner_module r; query_module := Some m |}.

(** The four constants imported from [st2common.constants.runners]; their
    values are not part of this module. *)
Record RunnerConstants := {
  LOCAL_RUNNER_DEFAULT_ACTION_TIMEOUT : Z;
  FABRIC_RUNNER_DEFAULT_ACTION_TIMEOUT : Z;
  FABRIC_RUNNER_DEFAULT_REMOTE_DIR : string;
  PYTHON_RUNNER_DEFAULT_ACTION_TIMEOUT : Z
}.

(** The double-quote character, for the descriptions that contain it. *)
Definition dq : string := String (Ascii.ascii_of_nat 34) EmptyString.

Definition d_kwarg_op : string :=
  "Operator to use in front of keyword args i.e. " +:+ dq +:+ "--" +:+ dq
  +:+ " or " +:+ dq +:+ "-" +:+ dq +:+ ".".

Definition d_timeout : string :=
  "Action timeout in seconds. Action will get killed if it doesn't finish in timeout seconds.".

Definition d_env_command : string :=
  "Environment variables which will be available to the command(e.g. key1=val1,key2=val2)".

Definition d_env_script : string :=
  "Environment variables which will be available to the script(e.g. key1=val1,key2=val2)".

Section Catalogue.
Variable c : RunnerConstants.

Definition run_local : RunnerTypeDict :=
  runner "run-local" "A runner to execute local actions as a fixed user." true
    [ ("cmd", param "Arbitrary Linux command to be executed on the host." "string");
      ("cwd", param "Working directory where the command will be executed in" "string");
      ("env", param d_env_command "object");
      ("sudo", with_default (PyBool false)
                 (param "The command will be executed with sudo." "boolean"));
      ("kwarg_op", with_default (PyStr "--") (param d_kwarg_op "string"));
      ("timeout", with_default (PyInt (LOCAL_RUNNER_DEFAULT_ACTION_TIMEOUT c))
                    (param d_timeout "integer")) ]
    "st2actions.runners.localrunner".

Definition run_local_script : RunnerTypeDict :=
  runner "run-local-script" "A runner to execute local actions as a fixed user." true
    [ ("cwd", param "Working directory where the script will be executed in" "string");
      ("env", param d_env_script "object");
      ("sudo", with_default (PyBool false)
                 (param "The command will be executed with sudo." "boolean"));
      ("kwarg_op", with_default (PyStr "--") (param d_kwarg_op "string"));
      ("timeout", with_default (PyInt (LOCAL_RUNNER_DEFAULT_ACTION_TIMEOUT c))
                    (param d_timeout "integer")) ]
    "st2actions.runners.localrunner".

Definition d_hosts : string :=
  "A comma delimited string of a list of hosts where the remote command will be executed.".
Definition d_username : string :=
  "Username used to log-in. If not provided, default username from config is used.".
Definition d_password : string :=
  "Password used to log in. If not provided, private key from the config file is used.".
Definition d_private_key : string :=
  "Private key used to log in. If not provided, private key from the config file is used.".
Definition d_dir : string :=
  "The working directory where the script will be copied to on the remote host.".

Definition run_remote : RunnerTypeDict :=
  runner "run-remote"
    "A remote execution runner that executes actions as a fixed system user." true
    [ ("hosts", with_required true (param d_hosts "string"));
      ("username", with_required false (param d_username "string"));
      ("password", with_required false (param d_password "string"));
      ("private_key", with_required false (param d_private_key "string"));
      ("cmd", param "Arbitrary Linux command to be executed on the remote host(s)." "string");
      ("cwd", param "Working directory where the script will be executed in" "string");
      ("env", param d_env_command "object");
      ("parallel", with_immutable true (with_default (PyBool true)
                     (param "Default to parallel execution." "boolean")));
      ("sudo", with_default (PyBool false)
                 (param "The remote command will be executed with sudo." "boolean"));
      ("dir", with_immutable true
                (with_default (PyStr (FABRIC_RUNNER_DEFAULT_REMOTE_DIR c))
                   (param d_dir "string")));
      ("kwarg_op", with_default (PyStr "--") (param d_kwarg_op "string"));
      ("timeout", with_default (PyInt (FABRIC_RUNNER_DEFAULT_ACTION_TIMEOUT c))
                    (param d_timeout "integer")) ]
    "st2actions.runners.fabricrunner".

Definition run_remote_script : RunnerTypeDict :=
  runner "run-remote-script"
    "A remote execution runner that executes actions as a fixed system user." true
    [ ("hosts", with_required true (param d_hosts "string"));
      ("username", with_required false (param d_username "string"));
      ("password", with_required false (param d_password "string"));
      ("private_key", with_required false (param d_private_key "string"));
      ("parallel", with_immutable true (with_default (PyBool true)
                     (param "Default to parallel execution." "boolean")));
      ("cwd", with_default (PyStr (FABRIC_RUNNER_DEFAULT_REMOTE_DIR c))
                (param "Working directory where the script will be executed in." "string"));
      ("env", param d_env_script "object");
      ("sudo", with_default (PyBool false)
                 (param "The remote command will be executed with sudo." "boolean"));
      ("dir", with_default (PyStr (FABRIC_RUNNER_DEFAULT_REMOTE_DIR c))
                (param d_dir "string"));
      ("kwarg_op", with_default (PyStr "--") (param d_kwarg_op "string"));
      ("timeout", with_default (PyInt (FABRIC_RUNNER_DEFAULT_ACTION_TIMEOUT c))
                    (param d_timeout "integer")) ]
    "st2actions.runners.fabricrunner".

Definition http_runner : RunnerTypeDict :=
  runner "http-runner" "A HTTP client for running HTTP actions." true
    [ ("url", with_required true (param "URL to the HTTP endpoint." "string"));
      ("headers", param "HTTP headers for the request." "string");
      ("cookies", param "Optional cookies to send with the request." "object");
      ("http_proxy",
        param "A URL of a HTTP proxy to use (e.g. http://10.10.1.10:3128)." "string");
      ("https_proxy",
        param "A URL of a HTTPs proxy to use (e.g. http://10.10.1.10:3128)." "string");
      ("allow_redirects", with_default (PyBool false)
         (param "Set to True if POST/PUT/DELETE redirect following is allowed." "boolean")) ]
    "st2actions.runners.httprunner".

Definition mistral_v1 : RunnerTypeDict :=
  runner "mistral-v1" "A runner for executing mistral v1 workflow." true
    [ ("workbook", with_required true (param "The name of the workbook." "string"));
      ("task", with_required true
                 (param "The startup task in the workbook to execute." "string"));
      ("context", with_default (PyDict [])
                    (param "Context for the startup task." "object")) ]
    "st2actions.runners.mistral.v1".

Definition d_workflow : string :=
  "The name of the workflow to run if the entry_point is a workbook of many workflows. The name should be in the format "
  +:+ dq +:+ "<pack_name>.<action_name>.<workflow_name>" +:+ dq
  +:+ ". If entry point is a workflow or a workbook with a single workflow, the runner will identify the workflow automatically.".

Definition mistral_v2 : RunnerTypeDict :=
  with_query_module "st2actions.query.mistral.v2"
    (runner "mistral-v2" "A runner for executing mistral v2 workflow." true
       [ ("workflow", param d_workflow "string");
         ("task", param "The name of the task to run for reverse workflow." "string");
         ("context", with_default (PyDict [])
                       (param "Additional workflow inputs." "object")) ]
       "st2actions.runners.mistral.v2").

Definition action_chain : RunnerTypeDict :=
  runner "action-chain" "A runner for launching linear action chains." true []
    "st2actions.runners.actionchainrunner".

Definition run_python : RunnerTypeDict :=
  runner "run-python" "A runner for launching python actions." true
    [ ("env", param d_env_script "object");
      ("timeout", with_default (PyInt (PYTHON_RUNNER_DEFAULT_ACTION_TIMEOUT c))
                    (param d_timeout "integer")) ]
    "st2actions.runners.pythonrunner".

(** Experimental runners below *)

Definition run_windows_cmd : RunnerTypeDict :=
  with_experimental true
    (runner "run-windows-cmd"
       "A remote execution runner that executes commandson Windows hosts." true
       [ ("host", with_required true (param "Host to execute the command on" "string"));
         ("username", with_required true (with_default (PyStr "Administrator")
                        (param "Username used to log-in." "string")));
         ("password", with_required true (param "Password used to log in." "string"));
         ("cmd", param "Arbitrary command to be executed on the remote host." "string");
         ("timeout", with_default (PyInt (FABRIC_RUNNER_DEFAULT_ACTION_TIMEOUT c))
                       (param d_timeout "integer")) ]
       "st2actions.runners.windows_command_runner").

Definition run_windows_script : RunnerTypeDict :=
  with_experimental true
    (runner "run-windows-script"
       "A remote execution runner that executes power shell scriptson Windows hosts." true
       [ ("host", with_required true (param "Host to execute the command on" "string"));
         ("username", with_required true (with_default (PyStr "Administrator")
                        (param "Username used to log-in." "string")));
         ("password", with_required true (param "Password used to log in." "string"));
         ("share", with_default (PyStr "C$") (with_required true
                     (param "Name of the Windows share where script files are uploaded"
                        "string")));
         ("timeout", with_default (PyInt (FABRIC_RUNNER_DEFAULT_ACTION_TIMEOUT c))
                       (param d_timeout "integer")) ]
       "st2actions.runners.windows_script_runner").

Definition RUNNER_TYPES : list RunnerTypeDict :=
  [ run_local; run_local_script; run_remote; run_remote_script; http_runner;
    mistral_v1; mistral_v2; action_chain; run_python;
    run_windows_cmd; run_windows_script ].
End Catalogue.

(** ** Exceptions, stored records and the store interface *)

(** The exceptions the pass can meet: the errors of the lookup, of the
    validation and of the database.  The code tells apart only the not-found
    error of the lookup from every other subclass of [Exception]. *)
Inductive exn :=
| StackStormDBObjectNotFoundError (message : string)
| Exception (message : string).

Abbreviation ObjectId := positive.

(** Modelled from the spec: the persisted RunnerTypeRecord, whose class
    (RunnerTypeDB) is not in this module: all the fields of the definition plus
    the identity [id] the store assigns; [None] is a model not yet saved. *)
Record RunnerTypeDB := {
  db_id : option ObjectId;
  db_doc : RunnerTypeDict
}.

(** Modelled from the spec: [RunnerTypeAPI.to_model], which is not in this
    module: the record built from a definition carries the definition's fields
    and has no id yet. *)
Definition to_model (runnertype : RunnerTypeDict) : RunnerTypeDB :=
  {| db_id := None; db_doc := runnertype |}.

(** [runner_type_model.id = runnertype_db.id] *)
Definition set_id (model : RunnerTypeDB) (i : option ObjectId) : RunnerTypeDB :=
  {| db_id := i; db_doc := db_doc model |}.

(** The two calls the pass makes on the database.  Either may raise; a raising
    [add_or_update] may still have changed the database. *)
Class Store (S : Type) := {
  get_runnertype_by_name : S → string → exn + RunnerTypeDB;
  RunnerType_add_or_update : S → RunnerTypeDB → S * (exn + RunnerTypeDB)
}.

(** ** Log records and outcomes *)

Inductive log_record :=
| DebugStart
| DebugSkipping (runner_name : string)
| AuditUpdated (runnertype_db : RunnerTypeDB)
| AuditCreated (runnertype_db : RunnerTypeDB)
| ExceptionUnableToRegister (runner_name : string) (e : exn)
| DebugEnd.

(** Modelled from the spec: the per-definition Outcome.  The code returns
    nothing; what it did for a definition is what it logged for it. *)
Inductive Outcome := Created | Updated | Skipped | Failed.

(** The outcome a log record stands for; the two bracketing debug lines stand
    for none. *)
Definition outcome_of (r : log_record) : option Outcome :=
  match r with
  | DebugSkipping _ => Some Skipped
  | AuditUpdated _ => Some Updated
  | AuditCreated _ => Some Created
  | ExceptionUnableToRegister _ _ => Some Failed
  | DebugStart | DebugEnd => None
  end.

Definition outcomes (log : list log_record) : list Outcome :=
  omap outcome_of log.

(** ** [register_runner_types] *)

(** The state after one iteration of the loop body: the (possibly mutated)
    catalogue entry, the database, what was logged, and the exception that
    left the body, if any. *)
Record Step (S : Type) := MkStep {
  step_entry : RunnerTypeDict;
  step_store : S;
  step_log : list log_record;
  step_raised : option exn
}.
Arguments MkStep {S}.
Arguments step_entry {S}.
Arguments step_store {S}.
Arguments step_log {S}.
Arguments step_raised {S}.

(** The state after the whole call. *)
Record Run (S : Type) := MkRun {
  run_catalog : list RunnerTypeDict;
  run_store : S;
  run_log : list log_record;
  run_raised : option exn
}.
Arguments MkRun {S}.
Arguments run_catalog {S}.
Arguments run_store {S}.
Arguments run_log {S}.
Arguments run_raised {S}.

Section Registrar.
Context {S : Type} `{!Store S}.

(** Building the [RunnerTypeAPI] object from the entry's keys, followed by
    [validate()]: [Some e] when either raises [e].  The API class is not in
    this module, so the validation is a parameter. *)
Variable validate : RunnerTypeDict → option exn.

(** [runner_experimental and not experimental] *)
Definition skipped (experimental_flag : bool) (runnertype : RunnerTypeDict) : bool :=
  get_experimental runnertype && negb experimental_flag.

(** The first [try]: the lookup, with only the not-found error handled.
    Returns [(runnertype_db, update)]. *)
Definition lookup_existing (db : S) (runner_name : string)
    : exn + (option RunnerTypeDB * bool) :=
  match get_runnertype_by_name db runner_name with
  | inr runnertype_db => inr (Some runnertype_db, true)
  | inl (StackStormDBObjectNotFoundError _) => inr (None, false)
  | inl e => inl e
  end.

(** Building the model, after validation: [to_model], then the id of the
    record that was found, if one was. *)
Definition build_model (runnertype : RunnerTypeDict)
    (runnertype_db : option RunnerTypeDB) : RunnerTypeDB :=
  let runner_type_model := to_model runnertype in
  match runnertype_db with
  | Some existing => set_id runner_type_model (db_id existing)
  | None => runner_type_model
  end.

(** The second [try]: [add_or_update] and the audit line, with every
    exception logged and dropped. *)
Definition persist (db : S) (runnertype : RunnerTypeDict)
    (runner_type_model : RunnerTypeDB) (update : bool) : S * list log_record :=
  match RunnerType_add_or_update db runner_type_model with
  | (db', inr runnertype_db) =>
      (db', [if update then AuditUpdated runnertype_db
             else AuditCreated runnertype_db])
  | (db', inl e) => (db', [ExceptionUnableToRegister (name runnertype) e])
  end.

(** The body of [for runnertype in RUNNER_TYPES]. *)
Definition register_runner_type (experimental_flag : bool)
    (runnertype : RunnerTypeDict) (db : S) : Step S :=
  let runner_name := name runnertype in
  if skipped experimental_flag runnertype then
    MkStep runnertype db [DebugSkipping runner_name] None
  else
    let runnertype := del_experimental runnertype in
    match lookup_existing db runner_name with
    | inl e => MkStep runnertype db [] (Some e)
    | inr (runnertype_db, update) =>
        match validate runnertype with
        | Some e => MkStep runnertype db [] (Some e)
        | None =>
            let runner_type_model := build_model runnertype runnertype_db in
            let '(db', log) := persist db runnertype runner_type_model update in
            MkStep runnertype db' log None
        end
    end.

(** The loop over the catalogue.  The entries are mutated in place, so the
    catalogue comes back with them; an exception leaving the body ends the
    loop and leaves the remaining entries as they were. *)
Fixpoint register_loop (experimental_flag : bool)
    (catalog : list RunnerTypeDict) (db : S) : Run S :=
  match catalog with
  | [] => MkRun [] db [] None
  | runnertype :: rest =>
      let s := register_runner_type experimental_flag runnertype db in
      match step_raised s with
      | Some e => MkRun (step_entry s :: rest) (step_store s) (step_log s) (Some e)
      | None =>
          let r := register_loop experimental_flag rest (step_store s) in
          MkRun (step_entry s :: run_catalog r) (run_store r)
                (step_log s ++ run_log r) (run_raised r)
      end
  end.

(** [register_runner_types(experimental)], run on the catalogue [catalog]
    (the current contents of the global [RUNNER_TYPES]) and the database
    [db]. *)
Definition register_runner_types (experimental_flag : bool)
    (catalog : list RunnerTypeDict) (db : S) : Run S :=
  let r := register_loop experimental_flag catalog db in
  MkRun (run_catalog r) (run_store r)
        (DebugStart :: run_log r ++
           match run_raised r with None => [DebugEnd] | Some _ => [] end)
        (run_raised r).
End Registrar.

(** ** An in-memory store *)

(** Modelled from the spec: the records of the Store capability, whose code
    (the persistence layer) is not in this module.  A collection is a finite
    map from ids to documents, so an id names one record; nothing in the type
    keeps two records from carrying the same name. *)
Abbreviation MemStore := (gmap ObjectId RunnerTypeDict).

(** The records named [n], and the one among them with the smallest id. *)
Definition query (db : MemStore) (n : string) : list (ObjectId * RunnerTypeDict) :=
  filter (λ kv, name kv.2 = n) (map_to_list db).

Definition older (a b : ObjectId * RunnerTypeDict) : ObjectId * RunnerTypeDict :=
  if decide (a.1 ≤ b.1)%positive then a else b.

Fixpoint oldest (l : list (ObjectId * RunnerTypeDict))
    : option (ObjectId * RunnerTypeDict) :=
  match l with
  | [] => None
  | a :: l => Some (from_option (older a) a (oldest l))
  end.

(** Modelled from the spec: [find_by_name] of the Store capability, which
    stands for [get_runnertype_by_name] (not in this module): the record
    named [n], or [None] (the not-found error) when no record matches.  When
    several records carry the name, the one with the smallest id is the
    answer. *)
Definition find_by_name (db : MemStore) (n : string)
    : option (ObjectId * RunnerTypeDict) :=
  oldest (query db n).

(** Modelled from the spec: [upsert] of the Store capability, which stands for
    [RunnerType.add_or_update] (not in this module): it creates, under an id
    not in use, when the record carries no identity, and updates in place when
    it does; it returns the record as stored. *)
Definition upsert (db : MemStore) (record : RunnerTypeDB) : MemStore * RunnerTypeDB :=
  let i := default (fresh (dom db)) (db_id record) in
  (<[i := db_doc record]> db, {| db_id := Some i; db_doc := db_doc record |}).

(** Modelled from the spec: the in-memory store as a [Store], in which no call
    fails except a lookup that finds nothing. *)
#[global] Instance mem_store : Store MemStore := {
  get_runnertype_by_name db n :=
    match find_by_name db n with
    | Some (i, d) => inr {| db_id := Some i; db_doc := d |}
    | None => inl (StackStormDBObjectNotFoundError n)
    end;
  RunnerType_add_or_update db model :=
    let '(db', saved) := upsert db model in (db', inr saved)
}.

(** Modelled from the spec: the failures of the Store capability.  A lookup
    can fail with a store-level error other than not-found, and [upsert] can
    fail with a StoreError.  The names in [lookup_outage] are those whose
    lookup fails, the names in [write_outage] those whose [upsert] fails; a
    failed [upsert] writes nothing. *)
Record FaultyStore := {
  backing : MemStore;
  lookup_outage : list string;
  write_outage : list string
}.

(** Modelled from the spec: the store with failures as a [Store]. *)
#[global] Instance faulty_store : Store FaultyStore := {
  get_runnertype_by_name db n :=
    if bool_decide (n ∈ lookup_outage db) then inl (Exception "store-level error")
    else get_runnertype_by_name (backing db) n;
  RunnerType_add_or_update db model :=
    if bool_decide (name (db_doc model) ∈ write_outage db)
    then (db, inl (Exception "StoreError"))
    else
      let '(b, saved) := upsert (backing db) model in
      ({| backing := b; lookup_outage := lookup_outage db;
          write_outage := write_outage db |}, inr saved)
}.

(** ** Validation as the specification describes it *)

(** Modelled from the spec: the invariant of a parameter spec, checked by the
    validation ([RunnerTypeAPI.validate], not in this module): if [required]
    is true, [default] is absent. *)
Definition consistent (p : ParameterSpec) : bool :=
  match p_required p, p_default p with
  | Some true, Some _ => false
  | _, _ => true
  end.

Definition validation_error : exn :=
  Exception "ValidationError: a required parameter has a default".

(** Modelled from the spec: the validation of a definition's shape, whose code
    ([RunnerTypeAPI.validate]) is not in this module: the required fields are
    present (they are, by the type of an entry), every parameter spec is
    consistent, and [runner_module] is not empty. *)
Definition validate_spec (runnertype : RunnerTypeDict) : option exn :=
  if negb (forallb (λ kv, consistent kv.2) (runner_parameters runnertype)) then
    Some validation_error
  else if bool_decide (runner_module runnertype = EmptyString) then
    Some (Exception "ValidationError: runner_module is empty")
  else None.

(** A validation that accepts every definition. *)
Definition validate_any (runnertype : RunnerTypeDict) : option exn := None.

(** ** Vocabulary of the statements *)

(** An outcome fits a definition when it is [Skipped] exactly for a
    definition the filter leaves out. *)
Definition outcome_fits (flag : bool) (rt : RunnerTypeDict) (o : Outcome) : Prop :=
  o = Skipped ↔ skipped flag rt = true.

(** What an iteration does to the catalogue entry it visits. *)
Definition strip (flag : bool) (rt : RunnerTypeDict) : RunnerTypeDict :=
  if skipped flag rt then rt else del_experimental rt.

(** A definition in scope passes the validation [validate]. *)
Definition valid (validate : RunnerTypeDict → option exn) (flag : bool)
    (rt : RunnerTypeDict) : Prop :=
  skipped flag rt = false → validate (del_experimental rt) = None.

(** The outcome of a definition that is already in the store. *)
Definition settled_outcome (flag : bool) (rt : RunnerTypeDict) : Outcome :=
  if skipped flag rt then Skipped else Updated.

(** The documents a pass writes, in order: the stripped entries in scope. *)
Definition docs (flag : bool) (catalog : list RunnerTypeDict) : list RunnerTypeDict :=
  del_experimental <$> filter (λ rt, skipped flag rt = false) catalog.

(** The id under which [upsert] writes a document found by its name. *)
Definition target (db : MemStore) (n : string) : ObjectId :=
  match find_by_name db n with
  | Some (i, _) => i
  | None => fresh (dom db)
  end.

(** Looking a document up by its name and writing it back under the id
    found, or under a new id. *)
Definition apply_doc (db : MemStore) (d : RunnerTypeDict) : MemStore :=
  <[target db (name d) := d]> db.

(** The audit record of one successful iteration on the in-memory store. *)
Definition mem_record (db : MemStore) (d : RunnerTypeDict) : log_record :=
  match find_by_name db (name d) with
  | Some (i, _) => AuditUpdated {| db_id := Some i; db_doc := d |}
  | None => AuditCreated {| db_id := Some (fresh (dom db)); db_doc := d |}
  end.

(** Every lookup that succeeds in [db] succeeds in [db'] with the same id. *)
Definition stable (db db' : MemStore) : Prop :=
  ∀ n i d, find_by_name db n = Some (i, d) → ∃ d', find_by_name db' n = Some (i, d').

(** At most one record per name. *)
Definition names_unique (db : MemStore) : Prop :=
  ∀ i j d d', db !! i = Some d → db !! j = Some d' → name d = name d' → i = j.

(** Exactly one record named [n]. *)
Definition exactly_one (db : MemStore) (n : string) : Prop :=
  ∃ i, (∃ d, db !! i = Some d ∧ name d = n)
       ∧ ∀ j d, db !! j = Some d → name d = n → j = i.

(** A parameter spec that breaks the invariant of the data model. *)
Definition required_with_default (p : ParameterSpec) : Prop :=
  p_required p = Some true ∧ is_Some (p_default p).

(** ** Vocabulary of the further properties *)

(** Two entries that differ at most in the marker, which the second may have
    lost. *)
Definition same_but_marker (rt rt' : RunnerTypeDict) : Prop :=
  name rt' = name rt
  ∧ description rt' = description rt
  ∧ enabled rt' = enabled rt
  ∧ runner_parameters rt' = runner_parameters rt
  ∧ runner_module rt' = runner_module rt
  ∧ query_module rt' = query_module rt
  ∧ (experimental rt' = experimental rt ∨ experimental rt' = None).

(** The debug line of a skipped definition. *)
Definition is_skip_line (l : log_record) : bool :=
  match l with
  | DebugSkipping _ => true
  | _ => false
  end.

(** A log line fits a definition when it is the line the loop body writes for
    it: the skip line, with its name, for a definition the filter leaves out;
    an audit line or the failure line, with its name, for one in scope. *)
Definition line_fits (flag : bool) (rt : RunnerTypeDict) (l : log_record) : Prop :=
  match l with
  | DebugSkipping n => n = name rt ∧ skipped flag rt = true
  | ExceptionUnableToRegister n _ => n = name rt ∧ skipped flag rt = false
  | AuditUpdated _ | AuditCreated _ => skipped flag rt = false
  | DebugStart | DebugEnd => False
  end.

(** A store that keeps, beside the store [inner], the models that were
    handed to [add_or_update], in the order of the calls.  It answers every
    call as [inner] does. *)
Record Recorded (S : Type) := MkRecorded {
  inner : S;
  written : list RunnerTypeDB
}.
Arguments MkRecorded {S}.
Arguments inner {S}.
Arguments written {S}.

#[global] Instance recorded_store {S : Type} `{!Store S} : Store (Recorded S) := {
  get_runnertype_by_name r n := get_runnertype_by_name (inner r) n;
  RunnerType_add_or_update r model :=
    match RunnerType_add_or_update (inner r) model with
    | (db', result) => (MkRecorded db' (written r ++ [model]), result)
    end
}.

(** The shape of one parameter of the catalogue: its type is one of the four
    the catalogue uses, a default has the type declared, and an immutable
    parameter has a default. *)
Definition default_has_type (p : ParameterSpec) : bool :=
  match p_default p with
  | None => true
  | Some (PyBool _) => bool_decide (p_type p = "boolean")
  | Some (PyInt _) => bool_decide (p_type p = "integer")
  | Some (PyStr _) => bool_decide (p_type p = "string")
  | Some (PyDict _) => bool_decide (p_type p = "object")
  end.

Definition well_formed_parameter (p : ParameterSpec) : bool :=
  bool_decide (p_type p ∈ ["string"; "integer"; "boolean"; "object"])
  && default_has_type p
  && match p_immutable p with
     | Some true => bool_decide (is_Some (p_default p))
     | _ => true
     end.

(** The shape of one entry of the catalogue: it is enabled, names a runner
    module, its parameter names are pairwise distinct (the source writes them
    as the keys of a dict literal) and its parameters are well formed. *)
Definition well_formed_runner (rt : RunnerTypeDict) : bool :=
  enabled rt
  && negb (bool_decide (runner_module rt = EmptyString))
  && bool_decide (NoDup (runner_parameters rt).*1)
  && forallb (λ kv, well_formed_parameter kv.2) (runner_parameters rt).

(** ** Sample data *)

(** Sample values for the imported constants.  No statement below depends on
    the values chosen. *)
Definition sample_constants : RunnerConstants :=
  {| LOCAL_RUNNER_DEFAULT_ACTION_TIMEOUT := 60;
     FABRIC_RUNNER_DEFAULT_ACTION_TIMEOUT := 60;
     FABRIC_RUNNER_DEFAULT_REMOTE_DIR := "/tmp";
     PYTHON_RUNNER_DEFAULT_ACTION_TIMEOUT := 600 |}.

(** A definition without parameters. *)
Definition plain (n : string) : RunnerTypeDict :=
  runner n "A runner without parameters." true [] "st2actions.runners.plain".

(** A definition with a parameter that is required and has a default. *)
Definition flawed (n : string) : RunnerTypeDict :=
  runner n "A runner with an inconsistent parameter." true
    [ ("user", with_required true (with_default (PyStr "root")
                 (param "The user to run as." "string"))) ]
    "st2actions.runners.flawed".

(** An empty store in which the lookup of the names [lookups] and the write
    of the names [writes] fail. *)
Definition outage (lookups writes : list string) : FaultyStore :=
  {| backing := ∅; lookup_outage := lookups; write_outage := writes |}.

(** A store that holds an earlier version of run-local under the id 7. *)
Definition earlier_run_local : RunnerTypeDict :=
  runner "run-local" "An earlier description." false []
    "st2actions.runners.localrunner".

Definition seeded : MemStore := {[ 7%positive := earlier_run_local ]}.

(** A catalogue whose first entry carries a marker that is false. *)
Definition falsely_marked : list RunnerTypeDict :=
  [with_experimental false (plain "first"); plain "second"].

(** Three definitions of which the second fails validation. *)
Definition flawed_second : list RunnerTypeDict :=
  [plain "first"; flawed "second"; plain "third"].

Definition three_plain : list RunnerTypeDict :=
  [plain "first"; plain "second"; plain "third"].

Definition run_flawed_second : Run MemStore :=
  register_runner_types validate_spec false flawed_second ∅.

Definition run_lookup_outage : Run FaultyStore :=
  register_runner_types validate_any false three_plain (outage ["second"] []).

Definition run_write_outage : Run FaultyStore :=
  register_runner_types validate_any false three_plain (outage [] ["second"]).

Definition run_catalog_checked : Run MemStore :=
  register_runner_types validate_spec true (RUNNER_TYPES sample_constants) ∅.

Definition run_catalog_unchecked : Run MemStore :=
  register_runner_types validate_any true (RUNNER_TYPES sample_constants) ∅.



(** * Properties of the loop, for every store and every validation *)

Lemma name_del_experimental rt : name (del_experimental rt) = name rt.
Proof. unfold del_experimental. by destruct (experimental rt). Qed.

Lemma experimental_del_experimental rt : experimental (del_experimental rt) = None.
Proof. unfold del_experimental. by destruct (experimental rt) eqn:E. Qed.

Lemma del_experimental_idemp rt :
  del_experimental (del_experimental rt) = del_experimental rt.
Proof.
  unfold del_experimental at 1. by rewrite experimental_del_experimental.
Qed.

Lemma del_experimental_absent rt :
  experimental rt = None → del_experimental rt = rt.
Proof. unfold del_experimental. by intros ->. Qed.

Lemma skipped_del_experimental flag rt : skipped flag (del_experimental rt) = false.
Proof.
  unfold skipped, get_experimental. by rewrite experimental_del_experimental.
Qed.

Lemma skipped_true flag rt :
  skipped flag rt = true ↔ get_experimental rt = true ∧ flag = false.
Proof.
  unfold skipped. destruct (get_experimental rt), flag; simpl; intuition congruence.
Qed.

Lemma skipped_flag_true rt : skipped true rt = false.
Proof. unfold skipped. by destruct (get_experimental rt). Qed.

Lemma outcomes_app l1 l2 : outcomes (l1 ++ l2) = outcomes l1 ++ outcomes l2.
Proof. apply omap_app. Qed.

Section RegistrarFacts.
Context {S : Type} `{!Store S}.
Variable validate : RunnerTypeDict → option exn.

Lemma step_skipped flag rt (db : S) :
  skipped flag rt = true →
  register_runner_type validate flag rt db
  = MkStep rt db [DebugSkipping (name rt)] None.
Proof. unfold register_runner_type. by intros ->. Qed.

Lemma lookup_existing_inl (db : S) n e :
  lookup_existing db n = inl e ↔
  get_runnertype_by_name db n = inl e ∧
  ∀ m, e ≠ StackStormDBObjectNotFoundError m.
Proof.
  unfold lookup_existing.
  destruct (get_runnertype_by_name db n) as [[m|m]|found]; split;
    try (intros [? ?]); try congruence; intros; simplify_eq; try done.
Qed.

(** What one iteration leaves behind, by cases on how it ends. *)
Lemma step_cases flag rt (db : S) :
  let s := register_runner_type validate flag rt db in
  (skipped flag rt = true ∧ s = MkStep rt db [DebugSkipping (name rt)] None)
  ∨ (skipped flag rt = false ∧ ∃ e,
       (lookup_existing db (name rt) = inl e
        ∨ validate (del_experimental rt) = Some e)
       ∧ s = MkStep (del_experimental rt) db [] (Some e))
  ∨ (skipped flag rt = false ∧ ∃ found update db' record,
       lookup_existing db (name rt) = inr (found, update)
       ∧ validate (del_experimental rt) = None
       ∧ persist db (del_experimental rt)
           (build_model (del_experimental rt) found) update = (db', [record])
       ∧ (outcome_of record = Some Created ∨ outcome_of record = Some Updated
          ∨ outcome_of record = Some Failed)
       ∧ s = MkStep (del_experimental rt) db' [record] None).
Proof.
  intros s. subst s. unfold register_runner_type.
  destruct (skipped flag rt) eqn:Hs; [left; done|right].
  destruct (lookup_existing db (name rt)) as [e|[found update]] eqn:Hl.
  { left. split; [done|]. exists e. eauto. }
  destruct (validate (del_experimental rt)) as [e|] eqn:Hv.
  { left. split; [done|]. exists e. eauto. }
  right. split; [done|].
  unfold persist. cbv zeta.
  destruct (RunnerType_add_or_update db _) as [db' [e|saved]] eqn:Ha.
  - exists found, update, db', (ExceptionUnableToRegister (name (del_experimental rt)) e).
    split_and!; auto. by rewrite Ha.
  - exists found, update, db',
      (if update then AuditUpdated saved else AuditCreated saved).
    split_and!; auto; [by rewrite Ha|destruct update; auto].
Qed.

Lemma register_loop_app flag pre post (db : S) :
  register_loop validate flag (pre ++ post) db =
  let r1 := register_loop validate flag pre db in
  match run_raised r1 with
  | Some e => MkRun (run_catalog r1 ++ post) (run_store r1) (run_log r1) (Some e)
  | None =>
      let r2 := register_loop validate flag post (run_store r1) in
      MkRun (run_catalog r1 ++ run_catalog r2) (run_store r2)
            (run_log r1 ++ run_log r2) (run_raised r2)
  end.
Proof.
  revert db. induction pre as [|rt pre IH]; intros db; simpl.
  { by destruct (register_loop validate flag post db). }
  destruct (step_raised (register_runner_type validate flag rt db)); simpl; [done|].
  rewrite IH. simpl.
  destruct (run_raised (register_loop validate flag pre _)); simpl; [done|].
  by rewrite app_assoc.
Qed.

Lemma outcomes_register_runner_types flag catalog (db : S) :
  outcomes (run_log (register_runner_types validate flag catalog db))
  = outcomes (run_log (register_loop validate flag catalog db)).
Proof.
  unfold register_runner_types. simpl. rewrite outcomes_app.
  destruct (run_raised _); simpl; by rewrite app_nil_r.
Qed.
End RegistrarFacts.

Section Isolation.
Context {S : Type} `{!Store S}.
Variable validate : RunnerTypeDict → option exn.

Lemma step_outcome flag rt (db : S) :
  let s := register_runner_type validate flag rt db in
  step_raised s = None →
  ∃ o, outcomes (step_log s) = [o] ∧ outcome_fits flag rt o.
Proof.
  intros s. subst s.
  destruct (step_cases validate flag rt db)
    as [[Hs ->]|[[Hs (e & _ & ->)]|[Hs (fd & up & db' & rc & _ & _ & _ & Ho & ->)]]];
    simpl; intros Hr; [|done|].
  - exists Skipped. by split.
  - unfold outcomes. simpl.
    destruct Ho as [Ho|[Ho|Ho]]; rewrite Ho; simpl; eexists; (split; [done|]);
      unfold outcome_fits; rewrite Hs; split; intros; discriminate.
Qed.

(** The loop yields one outcome per definition, in order, up to the first
    definition whose lookup or validation raises. *)
Lemma loop_outcomes flag catalog (db : S) :
  let r := register_loop validate flag catalog db in
  ∃ k, Forall2 (outcome_fits flag) (take k catalog) (outcomes (run_log r))
    ∧ (run_raised r = None → k = length catalog)
    ∧ (∀ e, run_raised r = Some e →
         ∃ rt dbk, catalog !! k = Some rt ∧ skipped flag rt = false
           ∧ (lookup_existing dbk (name rt) = inl e
              ∨ validate (del_experimental rt) = Some e)).
Proof.
  revert db. induction catalog as [|rt rest IH]; intros db; simpl.
  { exists 0. split_and!; [constructor|done|done]. }
  destruct (step_raised (register_runner_type validate flag rt db)) as [e|] eqn:Hr.
  - exists 0. simpl.
    destruct (step_cases validate flag rt db)
      as [[Hs Heq]|[[Hs (e' & Hwhy & Heq)]|[Hs (fd & up & db' & rc & _ & _ & _ & _ & Heq)]]];
      rewrite Heq in Hr |- *; simpl in *; try done.
    split_and!; [constructor|done|].
    intros e0 [= <-]. simplify_eq. exists rt, db. eauto.
  - destruct (step_outcome flag rt db Hr) as (o & Ho & Hfit).
    destruct (IH (step_store (register_runner_type validate flag rt db)))
      as (k & Hall & Hnone & Hsome).
    exists (Datatypes.S k). simpl. rewrite outcomes_app, Ho. simpl.
    split_and!; [by constructor|by intros ->%Hnone|done].
Qed.

(** C6, as amended.  A lookup that fails with an error other than not-found
    is not caught: once the definitions before it have been processed, the
    error leaves [register_runner_types]; the definition has lost its
    experimental marker but nothing was validated, persisted or logged for
    it, and the definitions after it are not processed. *)
Theorem lookup_error_ends_the_pass flag pre rt rest (db : S) e :
  let r1 := register_loop validate flag pre db in
  run_raised r1 = None →
  skipped flag rt = false →
  get_runnertype_by_name (run_store r1) (name rt) = inl e →
  (∀ m, e ≠ StackStormDBObjectNotFoundError m) →
  register_runner_types validate flag (pre ++ rt :: rest) db
  = MkRun (run_catalog r1 ++ del_experimental rt :: rest) (run_store r1)
          (DebugStart :: run_log r1) (Some e).
Proof.
  intros r1 Hnone Hs Hget Hother. subst r1.
  unfold register_runner_types. rewrite register_loop_app. cbv zeta.
  rewrite Hnone. simpl.
  assert (lookup_existing (run_store (register_loop validate flag pre db)) (name rt)
          = inl e) as Hl by (by apply lookup_existing_inl).
  unfold register_runner_type. rewrite Hs, Hl. simpl.
  by rewrite !app_nil_r.
Qed.

(** C1, as amended.  Of the failures a definition can meet, the pass absorbs
    a not-found lookup and every failure of [add_or_update]: the latter is
    logged as that definition's failure and the loop goes on with the
    definitions after it.  So when no definition in scope fails validation
    and no lookup fails with another error, the call returns without an
    exception and with one outcome per definition, whatever [add_or_update]
    does. *)
Theorem persistence_failures_are_isolated :
  (∀ flag rt rest (db db' : S) found update e,
     skipped flag rt = false →
     lookup_existing db (name rt) = inr (found, update) →
     validate (del_experimental rt) = None →
     RunnerType_add_or_update db (build_model (del_experimental rt) found)
     = (db', inl e) →
     register_loop validate flag (rt :: rest) db =
     let r := register_loop validate flag rest db' in
     MkRun (del_experimental rt :: run_catalog r) (run_store r)
           (ExceptionUnableToRegister (name rt) e :: run_log r) (run_raised r))
  ∧ (∀ flag catalog (db : S) (reachable : S → Prop),
     reachable db →
     (∀ db model, reachable db →
        reachable (RunnerType_add_or_update db model).1) →
     (∀ db n e, reachable db → get_runnertype_by_name db n = inl e →
        ∃ m, e = StackStormDBObjectNotFoundError m) →
     (∀ rt, rt ∈ catalog → skipped flag rt = false →
        validate (del_experimental rt) = None) →
     let r := register_runner_types validate flag catalog db in
     run_raised r = None
     ∧ Forall2 (outcome_fits flag) catalog (outcomes (run_log r))).
Proof.
  split.
  - intros flag rt rest db db' found update e Hs Hl Hv Ha. simpl.
    unfold register_runner_type, persist. rewrite Hs, Hl, Hv. cbv zeta.
    rewrite Ha. simpl. by rewrite name_del_experimental.
  - intros flag catalog db reachable Hdb Hstep Hget Hval r.
    subst r. rewrite outcomes_register_runner_types.
    unfold register_runner_types. simpl.
    revert db Hdb. induction catalog as [|rt rest IH]; intros db Hdb; simpl.
    { split; [done|constructor]. }
    assert (step_raised (register_runner_type validate flag rt db) = None
            ∧ reachable (step_store (register_runner_type validate flag rt db)))
      as [Hr Hdb'].
    { destruct (step_cases validate flag rt db)
        as [[Hs ->]|[[Hs (e & Hwhy & ->)]|[Hs (fd & up & db' & rc & _ & _ & Hp & _ & ->)]]];
        simpl; [done| |].
      - exfalso. destruct Hwhy as [Hl|Hv].
        + apply lookup_existing_inl in Hl as [Hl Hother].
          destruct (Hget _ _ _ Hdb Hl) as [m ->]. by eapply Hother.
        + rewrite Hval in Hv; [done|left|done].
      - split; [done|]. unfold persist in Hp.
        specialize (Hstep db (build_model (del_experimental rt) fd) Hdb).
        destruct (RunnerType_add_or_update db _) as [db'' [e|saved]];
          simplify_eq; done. }
    rewrite Hr. simpl.
    destruct (step_outcome flag rt db Hr) as (o & Ho & Hfit).
    destruct (IH (λ rt' Hin, Hval rt' (list_elem_of_further _ _ _ Hin)) _ Hdb')
      as [Hnone Hall].
    split; [done|]. rewrite outcomes_app, Ho. by constructor.
Qed.

(** C8, as amended.  The outcomes come in catalogue order, one per
    definition, for the definitions before the first one whose lookup or
    validation raises; they cover the whole catalogue exactly when no
    exception leaves the call.  An exception that leaves the call comes from
    the lookup or the validation of a definition in scope, and ends the
    pass there. *)
Theorem outcomes_follow_the_catalog flag catalog (db : S) :
  let r := register_runner_types validate flag catalog db in
  ∃ k, Forall2 (outcome_fits flag) (take k catalog) (outcomes (run_log r))
    ∧ (run_raised r = None → k = length catalog)
    ∧ (∀ e, run_raised r = Some e →
         ∃ rt dbk, catalog !! k = Some rt ∧ skipped flag rt = false
           ∧ (lookup_existing dbk (name rt) = inl e
              ∨ validate (del_experimental rt) = Some e)).
Proof.
  intros r. subst r. rewrite outcomes_register_runner_types.
  apply loop_outcomes.
Qed.
End Isolation.

Section Filter.
Context {S : Type} `{!Store S}.
Variable validate : RunnerTypeDict → option exn.

Lemma step_entry_strip flag rt (db : S) :
  step_entry (register_runner_type validate flag rt db) = strip flag rt.
Proof.
  unfold strip.
  destruct (step_cases validate flag rt db)
    as [[Hs ->]|[[Hs (e & _ & ->)]|[Hs (fd & up & db' & rc & _ & _ & _ & _ & ->)]]];
    by rewrite Hs.
Qed.


Lemma strip_flag_true rt : strip true rt = del_experimental rt.
Proof. unfold strip. by rewrite skipped_flag_true. Qed.

(** The catalogue after the loop: the entries visited are stripped, the
    entries after an exception are as they were. *)
Lemma loop_catalog flag catalog (db : S) :
  let r := register_loop validate flag catalog db in
  ∃ n, run_catalog r = (strip flag <$> take n catalog) ++ drop n catalog
    ∧ (run_raised r = None → run_catalog r = strip flag <$> catalog).
Proof.
  revert db. induction catalog as [|rt rest IH]; intros db; simpl.
  { by exists 0. }
  pose proof (step_entry_strip flag rt db) as He.
  destruct (step_raised (register_runner_type validate flag rt db)) as [e|]; simpl.
  - exists 1. simpl. rewrite He. split; [|done]. by destruct rest.
  - destruct (IH (step_store (register_runner_type validate flag rt db)))
      as (n & Hn & Hall).
    exists (Datatypes.S n). simpl. rewrite He, Hn. split; [done|].
    intros Hr. rewrite <- Hn. by rewrite (Hall Hr).
Qed.

(** Once no entry carries the marker, the flag makes no difference. *)
Lemma step_unmarked flag flag' rt (db : S) :
  get_experimental rt = false →
  register_runner_type validate flag rt db
  = register_runner_type validate flag' rt db.
Proof. intros He. unfold register_runner_type, skipped. by rewrite He. Qed.

Lemma loop_unmarked flag flag' catalog (db : S) :
  Forall (λ rt, get_experimental rt = false) catalog →
  register_loop validate flag catalog db
  = register_loop validate flag' catalog db.
Proof.
  intros Hall. revert db. induction Hall as [|rt rest Hrt _ IH]; intros db; simpl.
  { done. }
  rewrite (step_unmarked flag flag' rt db Hrt).
  destruct (step_raised _); [done|]. by rewrite IH.
Qed.


End Filter.

(** * The in-memory store *)

Lemma elem_of_query (db : MemStore) n i d :
  (i, d) ∈ query db n ↔ db !! i = Some d ∧ name d = n.
Proof.
  unfold query. rewrite list_elem_of_filter, elem_of_map_to_list. simpl. tauto.
Qed.

Lemma oldest_None l : oldest l = None ↔ l = [].
Proof. destruct l; simpl; split; congruence. Qed.

Lemma oldest_Some l a :
  oldest l = Some a → a ∈ l ∧ ∀ b, b ∈ l → (a.1 ≤ b.1)%positive.
Proof.
  revert a. induction l as [|x l IH]; intros a; simpl; [done|].
  intros [= <-]. destruct (oldest l) as [y|] eqn:Hy; simpl.
  - destruct (IH y eq_refl) as [Hin Hmin]. unfold older.
    destruct (decide (x.1 ≤ y.1)%positive) as [Hle|Hgt].
    + split; [left|]. intros b [->|Hb]%elem_of_cons; [lia|].
      specialize (Hmin b Hb). lia.
    + split; [by right|]. intros b [->|Hb]%elem_of_cons; [lia|by apply Hmin].
  - apply oldest_None in Hy as ->. split; [left|].
    intros b [->|Hb]%elem_of_cons; [lia|by apply elem_of_nil in Hb].
Qed.

Lemma find_by_name_None (db : MemStore) n :
  find_by_name db n = None ↔ ∀ i d, db !! i = Some d → name d ≠ n.
Proof.
  unfold find_by_name. rewrite oldest_None. split.
  - intros Hq i d Hi Hn.
    assert ((i, d) ∈ query db n) as Hin by (by apply elem_of_query).
    rewrite Hq in Hin. by apply elem_of_nil in Hin.
  - intros Hno. destruct (query db n) as [|[i d] l] eqn:Hq; [done|].
    assert ((i, d) ∈ query db n) as Hin by (rewrite Hq; left).
    apply elem_of_query in Hin as [Hi Hn]. by destruct (Hno i d Hi).
Qed.

Lemma find_by_name_Some (db : MemStore) n i d :
  find_by_name db n = Some (i, d) ↔
  db !! i = Some d ∧ name d = n
  ∧ ∀ j d', db !! j = Some d' → name d' = n → (i ≤ j)%positive.
Proof.
  split.
  - intros Hf. apply oldest_Some in Hf as [Hin Hmin].
    apply elem_of_query in Hin as [Hi Hn]. split_and!; [done..|].
    intros j d' Hj Hn'. apply (Hmin (j, d')). by apply elem_of_query.
  - intros (Hi & Hn & Hmin).
    destruct (find_by_name db n) as [[i' x]|] eqn:Hf.
    + pose proof Hf as Hf'. apply oldest_Some in Hf' as [Hin Hmin'].
      apply elem_of_query in Hin as [Hi' Hn'].
      assert (i' = i) as ->.
      { specialize (Hmin i' x Hi' Hn').
        specialize (Hmin' (i, d) (proj2 (elem_of_query db n i d) (conj Hi Hn))).
        simpl in Hmin'. lia. }
      congruence.
    + exfalso. by eapply (proj1 (find_by_name_None db n) Hf i d).
Qed.

Lemma find_by_name_is_Some (db : MemStore) n :
  is_Some (find_by_name db n) ↔ ∃ i d, db !! i = Some d ∧ name d = n.
Proof.
  split.
  - intros [[i d] (Hi & Hn & _)%find_by_name_Some]. eauto.
  - intros (i & d & Hi & Hn).
    destruct (find_by_name db n) eqn:Hf; [done|].
    exfalso. by eapply (proj1 (find_by_name_None db n) Hf i d).
Qed.

Lemma target_found (db : MemStore) n i d :
  find_by_name db n = Some (i, d) → target db n = i.
Proof. unfold target. by intros ->. Qed.

Lemma target_other_name (db : MemStore) n j d :
  db !! j = Some d → name d ≠ n → target db n ≠ j.
Proof.
  intros Hj Hn Heq. unfold target in Heq.
  destruct (find_by_name db n) as [[i x]|] eqn:Hf.
  - apply find_by_name_Some in Hf as (Hi & Hx & _). congruence.
  - pose proof (is_fresh (dom db)) as Hfresh. rewrite Heq in Hfresh.
    apply Hfresh, elem_of_dom. eauto.
Qed.

Lemma find_apply_doc_same (db : MemStore) d :
  find_by_name (apply_doc db d) (name d) = Some (target db (name d), d).
Proof.
  apply find_by_name_Some. unfold apply_doc. split_and!.
  - apply lookup_insert_eq.
  - done.
  - intros j d' Hj Hn.
    destruct (decide (target db (name d) = j)) as [->|Hne]; [lia|].
    rewrite lookup_insert_ne in Hj by done.
    destruct (find_by_name db (name d)) as [[i x]|] eqn:Hf.
    + rewrite (target_found _ _ _ _ Hf).
      apply find_by_name_Some in Hf as (_ & _ & Hmin). by eapply Hmin.
    + exfalso. by eapply (proj1 (find_by_name_None db (name d)) Hf j d').
Qed.

Lemma find_apply_doc_other (db : MemStore) d n :
  n ≠ name d → find_by_name (apply_doc db d) n = find_by_name db n.
Proof.
  intros Hn.
  assert (∀ j x, name x = n →
            apply_doc db d !! j = Some x ↔ db !! j = Some x) as Hsame.
  { intros j x Hx. unfold apply_doc.
    destruct (decide (target db (name d) = j)) as [<-|Hne].
    - rewrite lookup_insert_eq. split.
      + intros [= <-]. congruence.
      + intros Hj. exfalso. eapply target_other_name; [exact Hj| |done]. congruence.
    - by rewrite lookup_insert_ne. }
  destruct (find_by_name db n) as [[i x]|] eqn:Hf.
  - apply find_by_name_Some in Hf as (Hi & Hx & Hmin).
    apply find_by_name_Some. split_and!; [by apply Hsame|done|].
    intros j d' Hj Hd'. apply (Hmin j d'); [by apply Hsame|done].
  - apply find_by_name_None. intros j x Hj Hx.
    eapply (proj1 (find_by_name_None db n) Hf j x); [by apply Hsame|done].
Qed.

Lemma stable_refl db : stable db db.
Proof. intros n i d ?. eauto. Qed.

Lemma stable_trans db1 db2 db3 : stable db1 db2 → stable db2 db3 → stable db1 db3.
Proof. intros H12 H23 n i d Hf. destruct (H12 _ _ _ Hf) as [d' Hf']. eauto. Qed.

Lemma stable_apply_doc db d : stable db (apply_doc db d).
Proof.
  intros n i x Hf. destruct (decide (n = name d)) as [->|Hne].
  - rewrite find_apply_doc_same, (target_found _ _ _ _ Hf). eauto.
  - rewrite find_apply_doc_other by done. eauto.
Qed.

Lemma names_unique_apply_doc db d : names_unique db → names_unique (apply_doc db d).
Proof.
  intros Hu.
  assert (∀ j x, apply_doc db d !! j = Some x → name x = name d →
            j = target db (name d)) as Honly.
  { intros j x Hj Hx. unfold apply_doc in Hj.
    destruct (decide (target db (name d) = j)) as [|Hne]; [done|].
    rewrite lookup_insert_ne in Hj by done.
    destruct (find_by_name db (name d)) as [[i y]|] eqn:Hf.
    - rewrite (target_found _ _ _ _ Hf).
      apply find_by_name_Some in Hf as (Hi & Hy & _).
      apply (Hu j i x y); congruence.
    - exfalso. by eapply (proj1 (find_by_name_None db (name d)) Hf j x). }
  intros i j x y Hi Hj Hxy.
  destruct (decide (name x = name d)) as [Hx|Hx].
  - rewrite (Honly i x Hi Hx). symmetry. apply (Honly j y Hj). congruence.
  - unfold apply_doc in Hi, Hj.
    assert (target db (name d) ≠ i) as Hi' by (intros <-; rewrite lookup_insert_eq in Hi; congruence).
    assert (target db (name d) ≠ j) as Hj' by (intros <-; rewrite lookup_insert_eq in Hj; congruence).
    rewrite lookup_insert_ne in Hi, Hj by done. by apply (Hu i j x y).
Qed.

Section MemStoreFacts.
Variable validate : RunnerTypeDict → option exn.

Lemma mem_step_ok flag rt (db : MemStore) :
  skipped flag rt = false →
  validate (del_experimental rt) = None →
  register_runner_type validate flag rt db
  = MkStep (del_experimental rt) (apply_doc db (del_experimental rt))
      [mem_record db (del_experimental rt)] None.
Proof.
  intros Hs Hv.
  unfold register_runner_type, lookup_existing, persist, mem_record, apply_doc, target.
  rewrite Hs, name_del_experimental. simpl.
  destruct (find_by_name db (name rt)) as [[i x]|]; simpl; by rewrite Hv.
Qed.

Lemma mem_step_invalid flag rt (db : MemStore) e :
  skipped flag rt = false →
  validate (del_experimental rt) = Some e →
  register_runner_type validate flag rt db
  = MkStep (del_experimental rt) db [] (Some e).
Proof.
  intros Hs Hv. unfold register_runner_type, lookup_existing.
  rewrite Hs. simpl.
  destruct (find_by_name db (name rt)) as [[i x]|]; simpl; by rewrite Hv.
Qed.

Lemma mem_step_cases flag rt (db : MemStore) :
  let s := register_runner_type validate flag rt db in
  (skipped flag rt = true ∧ s = MkStep rt db [DebugSkipping (name rt)] None)
  ∨ (skipped flag rt = false ∧ ∃ e, validate (del_experimental rt) = Some e
       ∧ s = MkStep (del_experimental rt) db [] (Some e))
  ∨ (skipped flag rt = false ∧ validate (del_experimental rt) = None
       ∧ s = MkStep (del_experimental rt) (apply_doc db (del_experimental rt))
               [mem_record db (del_experimental rt)] None).
Proof.
  intros s. subst s. destruct (skipped flag rt) eqn:Hs.
  { left. split; [done|]. by apply step_skipped. }
  right. destruct (validate (del_experimental rt)) as [e|] eqn:Hv.
  - left. split; [done|]. exists e. split; [done|]. by apply mem_step_invalid.
  - right. split_and!; [done..|]. by apply mem_step_ok.
Qed.

(** A property of the store that every write keeps holds after the loop. *)
Lemma mem_loop_invariant (P : MemStore → Prop) flag catalog (db : MemStore) :
  (∀ db rt, P db → P (apply_doc db (del_experimental rt))) →
  P db → P (run_store (register_loop validate flag catalog db)).
Proof.
  intros Hkeep. revert db. induction catalog as [|rt rest IH]; intros db Hdb; simpl.
  { done. }
  destruct (mem_step_cases flag rt db)
    as [[Hs ->]|[[Hs (e & Hv & ->)]|[Hs (Hv & ->)]]]; simpl; auto.
Qed.

Lemma mem_loop_stable flag catalog (db : MemStore) :
  stable db (run_store (register_loop validate flag catalog db)).
Proof.
  apply (mem_loop_invariant (stable db)); [|apply stable_refl].
  intros db' d Hst. eapply stable_trans; [exact Hst|apply stable_apply_doc].
Qed.

Lemma mem_loop_names_unique flag catalog (db : MemStore) :
  names_unique db →
  names_unique (run_store (register_loop validate flag catalog db)).
Proof. apply mem_loop_invariant. intros. by apply names_unique_apply_doc. Qed.

Lemma mem_record_cases (db : MemStore) d saved :
  (mem_record db d = AuditUpdated saved →
     db_doc saved = d ∧ ∃ x, find_by_name db (name d) = Some (default 1%positive (db_id saved), x)
       ∧ is_Some (db_id saved))
  ∧ (mem_record db d = AuditCreated saved →
     db_doc saved = d ∧ find_by_name db (name d) = None).
Proof.
  unfold mem_record. destruct (find_by_name db (name d)) as [[i x]|];
    split; intros [= <-]; simpl; eauto.
Qed.

(** What the log of a loop says about a name that was in the store. *)
Lemma mem_loop_log flag catalog (db : MemStore) N I d :
  find_by_name db N = Some (I, d) →
  let r := register_loop validate flag catalog db in
  (∀ saved, AuditUpdated saved ∈ run_log r → name (db_doc saved) = N →
     db_id saved = Some I)
  ∧ (∀ saved, AuditCreated saved ∈ run_log r → name (db_doc saved) ≠ N).
Proof.
  revert db d. induction catalog as [|rt rest IH]; intros db d Hf; simpl.
  { split; intros saved Hin; by apply elem_of_nil in Hin. }
  destruct (mem_step_cases flag rt db)
    as [[Hs ->]|[[Hs (e & Hv & ->)]|[Hs (Hv & ->)]]]; simpl.
  - destruct (IH db d Hf) as [Hu Hc].
    split; intros saved [Hin|Hin]%elem_of_cons; try discriminate; eauto.
  - split; intros saved Hin; by apply elem_of_nil in Hin.
  - destruct (stable_apply_doc db (del_experimental rt) _ _ _ Hf) as [d' Hf'].
    destruct (IH _ d' Hf') as [Hu Hc].
    split; intros saved [Hin|Hin]%elem_of_cons; eauto.
    + intros Hn. symmetry in Hin.
      apply mem_record_cases in Hin as (Hdoc & x & Hx & [j Hj]).
      rewrite Hj in Hx |- *. simpl in Hx. rewrite <- Hdoc, Hn in Hx. congruence.
    + intros Hn. symmetry in Hin.
      apply mem_record_cases in Hin as (Hdoc & Hx).
      rewrite <- Hdoc, Hn in Hx. congruence.
Qed.

(** Every definition the log reports as created or updated is in the store
    at the end. *)
Lemma mem_loop_logged_found flag catalog (db : MemStore) saved :
  let r := register_loop validate flag catalog db in
  AuditCreated saved ∈ run_log r ∨ AuditUpdated saved ∈ run_log r →
  is_Some (find_by_name (run_store r) (name (db_doc saved))).
Proof.
  revert db. induction catalog as [|rt rest IH]; intros db; simpl.
  { intros [Hin|Hin]; by apply elem_of_nil in Hin. }
  destruct (mem_step_cases flag rt db)
    as [[Hs ->]|[[Hs (e & Hv & ->)]|[Hs (Hv & ->)]]]; simpl.
  - intros [[Hin|Hin]%elem_of_cons|[Hin|Hin]%elem_of_cons]; try discriminate;
      apply IH; auto.
  - intros [Hin|Hin]; by apply elem_of_nil in Hin.
  - intros Hin.
    assert (mem_record db (del_experimental rt) = AuditCreated saved
            ∨ mem_record db (del_experimental rt) = AuditUpdated saved
            ∨ AuditCreated saved ∈ run_log
                (register_loop validate flag rest (apply_doc db (del_experimental rt)))
            ∨ AuditUpdated saved ∈ run_log
                (register_loop validate flag rest (apply_doc db (del_experimental rt))))
      as [Hrec|[Hrec|Hrest]].
    { destruct Hin as [[Hin|Hin]%elem_of_cons|[Hin|Hin]%elem_of_cons]; auto. }
    + apply mem_record_cases in Hrec as [Hdoc _]. rewrite Hdoc.
      apply (mem_loop_invariant
               (λ m, is_Some (find_by_name m (name (del_experimental rt))))).
      * intros m x [[i y] Hm].
        destruct (stable_apply_doc m (del_experimental x) _ _ _ Hm); eauto.
      * rewrite find_apply_doc_same. eauto.
    + apply mem_record_cases in Hrec as [Hdoc _]. rewrite Hdoc.
      apply (mem_loop_invariant
               (λ m, is_Some (find_by_name m (name (del_experimental rt))))).
      * intros m x [[i y] Hm].
        destruct (stable_apply_doc m (del_experimental x) _ _ _ Hm); eauto.
      * rewrite find_apply_doc_same. eauto.
    + by apply IH.
Qed.

Lemma exactly_one_found (db : MemStore) n :
  names_unique db → is_Some (find_by_name db n) → exactly_one db n.
Proof.
  intros Hu [[i d] (Hi & Hn & _)%find_by_name_Some].
  exists i. split; [eauto|]. intros j x Hj Hx. apply (Hu j i x d); congruence.
Qed.

Lemma find_by_name_unique (db : MemStore) n i d :
  names_unique db → db !! i = Some d → name d = n →
  find_by_name db n = Some (i, d).
Proof.
  intros Hu Hi Hn. apply find_by_name_Some. split_and!; [done..|].
  intros j x Hj Hx. rewrite (Hu j i x d); [lia|congruence..].
Qed.
End MemStoreFacts.

Section Identity.
Variable validate : RunnerTypeDict → option exn.

Lemma mem_log_register_runner_types flag catalog (db : MemStore) record :
  outcome_of record ≠ None →
  record ∈ run_log (register_runner_types validate flag catalog db) →
  record ∈ run_log (register_loop validate flag catalog db).
Proof.
  intros Ho. unfold register_runner_types. simpl.
  intros [->|[Hin|Hin]%elem_of_app]%elem_of_cons; [done|done|].
  destruct (run_raised _).
  - by apply elem_of_nil in Hin.
  - apply list_elem_of_singleton in Hin as ->. done.
Qed.

(** C3.  Whatever the store, when the lookup finds a record, the model
    handed to [add_or_update] is the newly built one with the id of the
    record found copied onto it.  On the in-memory store, when the lookup of
    the name [N] finds the record with id [I]: registering a definition
    named [N] writes the newly built record under [I], in place of the old
    one, and logs an update that carries [I]; and after a whole pass, over
    any catalogue, the lookup of [N] still finds id [I], every update of
    [N] the pass logged carries [I], and [N] was never created anew. *)
Theorem identity_is_preserved flag :
  (∀ (S : Type) (ST : Store S) (sdb : S) rt existing,
     get_runnertype_by_name sdb (name rt) = inr existing →
     skipped flag rt = false →
     validate (del_experimental rt) = None →
     register_runner_type validate flag rt sdb
     = let '(sdb', log) :=
         persist sdb (del_experimental rt)
           {| db_id := db_id existing; db_doc := del_experimental rt |} true in
       MkStep (del_experimental rt) sdb' log None)
  ∧ (∀ (db : MemStore) N I d,
     find_by_name db N = Some (I, d) →
     (∀ rt, name rt = N → skipped flag rt = false →
        validate (del_experimental rt) = None →
        register_runner_type validate flag rt db
        = MkStep (del_experimental rt) (<[I := del_experimental rt]> db)
            [AuditUpdated {| db_id := Some I; db_doc := del_experimental rt |}]
            None)
     ∧ (∀ catalog,
          let r := register_runner_types validate flag catalog db in
          (∃ d', find_by_name (run_store r) N = Some (I, d'))
          ∧ (∀ saved, AuditUpdated saved ∈ run_log r →
               name (db_doc saved) = N → db_id saved = Some I)
          ∧ (∀ saved, AuditCreated saved ∈ run_log r →
               name (db_doc saved) ≠ N))).
Proof.
  split.
  { intros S ST sdb rt existing Hget Hs Hv.
    unfold register_runner_type, lookup_existing. by rewrite Hs, Hget, Hv. }
  intros db N I d Hf. split.
  - intros rt Hn Hs Hv. rewrite (mem_step_ok validate flag rt db Hs Hv).
    unfold apply_doc, mem_record, target.
    by rewrite name_del_experimental, Hn, Hf.
  - intros catalog r.
    destruct (mem_loop_log validate flag catalog db N I d Hf) as [Hu Hc].
    split_and!.
    + apply (mem_loop_stable validate flag catalog db _ _ _ Hf).
    + intros saved Hin. apply Hu.
      by apply (mem_log_register_runner_types flag catalog db).
    + intros saved Hin. apply Hc.
      by apply (mem_log_register_runner_types flag catalog db).
Qed.

(** C9.  If the store holds at most one record per name before a pass, it
    does so after it, whatever the catalogue, and every definition the pass
    created or updated then has exactly one record.  A definition whose name
    is found is written over the record found, under its id, and the set of
    ids stays as it was; one whose name is not found adds one record.  The
    names of [RUNNER_TYPES] are pairwise distinct. *)
Theorem one_record_per_name flag catalog (db : MemStore) :
  names_unique db →
  let r := register_runner_types validate flag catalog db in
  names_unique (run_store r)
  ∧ (∀ saved, AuditCreated saved ∈ run_log r ∨ AuditUpdated saved ∈ run_log r →
       exactly_one (run_store r) (name (db_doc saved)))
  ∧ (∀ rt, skipped flag rt = false → validate (del_experimental rt) = None →
       let s := register_runner_type validate flag rt db in
       match find_by_name db (name rt) with
       | Some (i, _) =>
           step_store s = <[i := del_experimental rt]> db
           ∧ dom (step_store s) = dom db
           ∧ step_log s = [AuditUpdated {| db_id := Some i;
                                           db_doc := del_experimental rt |}]
       | None =>
           size (step_store s) = size db + 1
           ∧ exactly_one (step_store s) (name rt)
           ∧ outcomes (step_log s) = [Created]
       end)
  ∧ ∀ c, NoDup (name <$> RUNNER_TYPES c).
Proof.
  intros Hu r.
  assert (names_unique (run_store r)) as Hu'
    by (by apply mem_loop_names_unique).
  split_and!; [done| | |].
  2:{ intros rt Hs Hv s. subst s. rewrite (mem_step_ok validate flag rt db Hs Hv).
      simpl. unfold apply_doc, mem_record, target.
      rewrite name_del_experimental.
      destruct (find_by_name db (name rt)) as [[i x]|] eqn:Hf.
      - split_and!; [done| |done].
        apply find_by_name_Some in Hf as (Hi & _ & _).
        rewrite dom_insert_L. apply elem_of_dom_2 in Hi.
        apply subseteq_union_1_L. by apply singleton_subseteq_l.
      - split_and!; [|
          |done].
        + rewrite map_size_insert_None; [lia|].
          apply not_elem_of_dom, is_fresh.
        + apply exactly_one_found.
          * pose proof (names_unique_apply_doc db (del_experimental rt) Hu) as Hu2.
            unfold apply_doc, target in Hu2.
            by rewrite name_del_experimental, Hf in Hu2.
          * pose proof (find_apply_doc_same db (del_experimental rt)) as Hsame.
            unfold apply_doc, target in Hsame.
            rewrite name_del_experimental, Hf in Hsame. by rewrite Hsame. }
  - intros saved Hin. apply exactly_one_found; [done|].
    apply (mem_loop_logged_found validate flag catalog db saved).
    destruct Hin as [Hin|Hin]; [left|right];
      by apply (mem_log_register_runner_types flag catalog db).
  - intros c. apply (bool_decide_eq_true_1 (NoDup (name <$> RUNNER_TYPES c))).
    vm_compute. reflexivity.
Qed.

(** No pass stores an experimental field: a document in the store after a
    pass either was there before or has none. *)
Lemma mem_store_never_stores_experimental flag catalog (db : MemStore) i d :
  run_store (register_runner_types validate flag catalog db) !! i = Some d →
  db !! i = Some d ∨ experimental d = None.
Proof.
  unfold register_runner_types. simpl. revert i d.
  apply (mem_loop_invariant validate
           (λ m, ∀ i d, m !! i = Some d → db !! i = Some d ∨ experimental d = None));
    [|by left].
  intros m x Hm i d. unfold apply_doc.
  destruct (decide (target m (name (del_experimental x)) = i)) as [->|Hne].
  - rewrite lookup_insert_eq. intros [= <-]. right.
    apply experimental_del_experimental.
  - rewrite lookup_insert_ne by done. apply Hm.
Qed.
End Identity.

Section Experimental.
Context {S : Type} `{!Store S}.
Variable validate : RunnerTypeDict → option exn.

(** C2, as amended.  A definition marked experimental is skipped when the
    flag is off: the entry and the database are untouched, and the result
    owes nothing to the lookup, the validation or [add_or_update].  When the
    flag is on it is processed like any other definition, and is created or
    updated whenever its lookup, its validation and [add_or_update] succeed.
    The model handed to [add_or_update] is built from the stripped entry
    and has no experimental field, and on the in-memory store no pass ever
    leaves a document with an experimental field that was not there
    before. *)
Theorem experimental_filter rt (db : S) :
  get_experimental rt = true →
  register_runner_type validate false rt db
  = MkStep rt db [DebugSkipping (name rt)] None
  ∧ (∀ validate' (S' : Type) (ST' : Store S') (db' : S'),
       step_log (register_runner_type validate' false rt db')
       = step_log (register_runner_type validate false rt db))
  ∧ (∀ found update db' saved,
       lookup_existing db (name rt) = inr (found, update) →
       validate (del_experimental rt) = None →
       RunnerType_add_or_update db (build_model (del_experimental rt) found)
       = (db', inr saved) →
       register_runner_type validate true rt db
       = MkStep (del_experimental rt) db'
           [if update then AuditUpdated saved else AuditCreated saved] None)
  ∧ (∀ found,
       experimental (db_doc (build_model (del_experimental rt) found)) = None)
  ∧ (∀ flag catalog (mdb : MemStore) i d,
       run_store (register_runner_types validate flag catalog mdb) !! i = Some d →
       mdb !! i = Some d ∨ experimental d = None).
Proof.
  intros He. split_and!.
  - apply step_skipped. by apply skipped_true.
  - intros validate' S' ST' db'.
    by rewrite !step_skipped by (by apply skipped_true).
  - intros found update db' saved Hl Hv Ha.
    unfold register_runner_type, persist.
    rewrite skipped_flag_true, Hl, Hv. cbv zeta. by rewrite Ha.
  - intros [existing|]; simpl; apply experimental_del_experimental.
  - intros flag catalog mdb i d.
    apply mem_store_never_stores_experimental.
Qed.
End Experimental.

(** * Registering twice *)

Lemma skipped_strip flag rt : skipped flag (strip flag rt) = skipped flag rt.
Proof.
  unfold strip. destruct (skipped flag rt) eqn:Hs; [done|].
  apply skipped_del_experimental.
Qed.

Lemma del_experimental_strip flag rt :
  del_experimental (strip flag rt) = del_experimental rt.
Proof.
  unfold strip. destruct (skipped flag rt); [done|apply del_experimental_idemp].
Qed.

Lemma name_strip flag rt : name (strip flag rt) = name rt.
Proof. unfold strip. destruct (skipped flag rt); [done|apply name_del_experimental]. Qed.

Lemma strip_idemp flag rt : strip flag (strip flag rt) = strip flag rt.
Proof.
  unfold strip at 1. rewrite skipped_strip. unfold strip.
  destruct (skipped flag rt); [done|apply del_experimental_idemp].
Qed.

Lemma docs_cons flag rt catalog :
  docs flag (rt :: catalog)
  = if skipped flag rt then docs flag catalog
    else del_experimental rt :: docs flag catalog.
Proof.
  unfold docs. destruct (skipped flag rt) eqn:Hs.
  - by rewrite filter_cons_False by (rewrite Hs; discriminate).
  - by rewrite filter_cons_True by done.
Qed.

Lemma docs_strip flag catalog : docs flag (strip flag <$> catalog) = docs flag catalog.
Proof.
  induction catalog as [|rt rest IH]; [done|].
  rewrite fmap_cons, !docs_cons, skipped_strip, del_experimental_strip, IH. done.
Qed.

Lemma stable_foldl db D : stable db (foldl apply_doc db D).
Proof.
  revert db. induction D as [|d D IH]; intros db; simpl; [apply stable_refl|].
  eapply stable_trans; [apply stable_apply_doc|apply IH].
Qed.

Lemma found_foldl db D d :
  d ∈ D → is_Some (find_by_name (foldl apply_doc db D) (name d)).
Proof.
  revert db. induction D as [|x D IH]; intros db; simpl.
  { intros Hin. by apply elem_of_nil in Hin. }
  intros [->|Hin]%elem_of_cons; [|by apply IH].
  destruct (stable_foldl (apply_doc db x) D _ _ _ (find_apply_doc_same db x))
    as [d' Hd']. eauto.
Qed.

(** The writes of a pass all go to the ids that the lookups find in any
    store the result is stable into. *)
Lemma foldl_apply_fixed T D db :
  stable (foldl apply_doc db D) T →
  foldl apply_doc db D = foldl (λ m d, <[target T (name d) := d]> m) db D.
Proof.
  revert db. induction D as [|d D IH]; intros db; simpl; [done|].
  intros Hst. rewrite (IH _ Hst). f_equal. unfold apply_doc. f_equal.
  destruct (stable_foldl (apply_doc db d) D _ _ _ (find_apply_doc_same db d))
    as [d1 Hd1].
  destruct (Hst _ _ _ Hd1) as [d2 Hd2].
  symmetry. by apply (target_found _ _ _ _ Hd2).
Qed.

Lemma overwrite_lookup (f : RunnerTypeDict → ObjectId) D i :
  ∃ w : option RunnerTypeDict, ∀ db : MemStore,
    foldl (λ m d, <[f d := d]> m) db D !! i = from_option Some (db !! i) w.
Proof.
  induction D as [|d D [w Hw]]; simpl.
  { by exists None. }
  destruct w as [x|].
  - exists (Some x). intros db. by rewrite Hw.
  - destruct (decide (f d = i)) as [<-|Hne].
    + exists (Some d). intros db. rewrite Hw. simpl. apply lookup_insert_eq.
    + exists None. intros db. rewrite Hw. simpl. by apply lookup_insert_ne.
Qed.

(** A sequence of overwrites, done twice, leaves what it left the first
    time. *)
Lemma overwrite_twice (f : RunnerTypeDict → ObjectId) D (db : MemStore) :
  foldl (λ m d, <[f d := d]> m) (foldl (λ m d, <[f d := d]> m) db D) D
  = foldl (λ m d, <[f d := d]> m) db D.
Proof.
  apply map_eq. intros i. destruct (overwrite_lookup f D i) as [w Hw].
  rewrite (Hw (foldl _ db D)), (Hw db). by destruct w.
Qed.

Lemma foldl_apply_twice db D :
  foldl apply_doc (foldl apply_doc db D) D = foldl apply_doc db D.
Proof.
  set (T := foldl apply_doc (foldl apply_doc db D) D).
  assert (foldl apply_doc db D
          = foldl (λ m d, <[target T (name d) := d]> m) db D) as H1.
  { apply foldl_apply_fixed. apply stable_foldl. }
  assert (T = foldl (λ m d, <[target T (name d) := d]> m) (foldl apply_doc db D) D)
    as H2.
  { apply (foldl_apply_fixed T D (foldl apply_doc db D)). apply stable_refl. }
  rewrite H2, H1. apply overwrite_twice.
Qed.

Section Twice.
Variable validate : RunnerTypeDict → option exn.

Lemma loop_valid flag catalog (db : MemStore) :
  run_raised (register_loop validate flag catalog db) = None →
  Forall (valid validate flag) catalog.
Proof.
  revert db. induction catalog as [|rt rest IH]; intros db; simpl; [constructor|].
  destruct (mem_step_cases validate flag rt db)
    as [[Hs ->]|[[Hs (e & Hv & ->)]|[Hs (Hv & ->)]]]; simpl; try done.
  - intros Hr. constructor; [|by eapply IH]. intros ?. congruence.
  - intros Hr. constructor; [by intros _|by eapply IH].
Qed.

Lemma loop_completed flag catalog (db : MemStore) :
  Forall (valid validate flag) catalog →
  let r := register_loop validate flag catalog db in
  run_raised r = None
  ∧ run_store r = foldl apply_doc db (docs flag catalog)
  ∧ run_catalog r = strip flag <$> catalog.
Proof.
  intros Hall. revert db. induction Hall as [|rt rest Hrt _ IH]; intros db; simpl.
  { done. }
  rewrite docs_cons.
  assert (strip flag rt = if skipped flag rt then rt else del_experimental rt)
    as -> by done.
  destruct (mem_step_cases validate flag rt db)
    as [[Hs ->]|[[Hs (e & Hv & ->)]|[Hs (Hv & ->)]]]; simpl; rewrite Hs.
  - destruct (IH db) as (-> & -> & ->). done.
  - rewrite (Hrt Hs) in Hv. done.
  - destruct (IH (apply_doc db (del_experimental rt))) as (-> & -> & ->). done.
Qed.

Lemma loop_settled flag catalog (db : MemStore) :
  Forall (valid validate flag) catalog →
  Forall (λ rt, skipped flag rt = false → is_Some (find_by_name db (name rt)))
    catalog →
  outcomes (run_log (register_loop validate flag catalog db))
  = settled_outcome flag <$> catalog.
Proof.
  intros Hall. revert db. induction Hall as [|rt rest Hrt _ IH]; intros db Hfound; simpl.
  { done. }
  apply Forall_cons in Hfound as [Hhere Hrest]. unfold settled_outcome at 1.
  destruct (mem_step_cases validate flag rt db)
    as [[Hs ->]|[[Hs (e & Hv & ->)]|[Hs (Hv & ->)]]]; simpl; rewrite Hs.
  - cbn. f_equal. by apply IH.
  - rewrite (Hrt Hs) in Hv. done.
  - destruct (Hhere Hs) as [[i x] Hx]. unfold mem_record.
    rewrite name_del_experimental, Hx. cbn. f_equal. apply IH.
    eapply Forall_impl; [exact Hrest|]. intros rt' Hrt' Hs'.
    destruct (Hrt' Hs') as [[j y] Hy].
    destruct (stable_apply_doc db (del_experimental rt) _ _ _ Hy). eauto.
Qed.

(** C4, as amended.  On a store whose lookups and writes do not fail: if a
    first call returns without an exception, a second call with the same
    flag returns too, reports Updated for every definition it does not skip
    (and skips the same definitions), and leaves the store, and the
    catalogue, as the first call left them. *)
Theorem registering_twice flag catalog (db : MemStore) :
  let r1 := register_runner_types validate flag catalog db in
  run_raised r1 = None →
  let r2 := register_runner_types validate flag (run_catalog r1) (run_store r1) in
  run_raised r2 = None
  ∧ outcomes (run_log r2) = settled_outcome flag <$> catalog
  ∧ run_store r2 = run_store r1
  ∧ run_catalog r2 = run_catalog r1.
Proof.
  intros r1 Hr1 r2. subst r1 r2. rewrite outcomes_register_runner_types.
  unfold register_runner_types in *. simpl in *.
  pose proof (loop_valid flag catalog db Hr1) as Hvalid.
  destruct (loop_completed flag catalog db Hvalid) as (_ & Hstore & Hcat).
  rewrite Hcat, Hstore.
  assert (Forall (valid validate flag) (strip flag <$> catalog)) as Hvalid2.
  { apply Forall_fmap. eapply Forall_impl; [exact Hvalid|].
    intros rt Hrt. unfold valid, compose.
    by rewrite skipped_strip, del_experimental_strip. }
  destruct (loop_completed flag (strip flag <$> catalog)
              (foldl apply_doc db (docs flag catalog)) Hvalid2)
    as (Hr2 & Hstore2 & Hcat2).
  split_and!.
  - done.
  - rewrite loop_settled; [|done|].
    + rewrite <- list_fmap_compose. apply list_fmap_ext. intros _ rt _.
      unfold settled_outcome, compose. by rewrite skipped_strip.
    + apply Forall_fmap, Forall_forall. intros rt Hin. unfold compose.
      rewrite skipped_strip, name_strip. intros Hs.
      rewrite <- (name_del_experimental rt). apply found_foldl.
      unfold docs. apply list_elem_of_fmap. exists rt. split; [done|].
      by apply list_elem_of_filter.
  - rewrite Hstore2, docs_strip. apply foldl_apply_twice.
  - rewrite Hcat2, <- list_fmap_compose. apply list_fmap_ext.
    intros _ rt _. apply strip_idemp.
Qed.
End Twice.

(** * Validation failures *)

Lemma validate_spec_rejects rt k p :
  (k, p) ∈ runner_parameters rt → required_with_default p →
  validate_spec rt = Some validation_error.
Proof.
  intros Hin [Hreq [v Hdef]]. unfold validate_spec.
  assert (forallb (λ kv, consistent kv.2) (runner_parameters rt) = false) as ->.
  { apply not_true_is_false. intros Hall.
    rewrite forallb_forall in Hall.
    specialize (Hall (k, p) (proj1 (list_elem_of_In _ _) Hin)).
    unfold consistent in Hall. simpl in Hall. by rewrite Hreq, Hdef in Hall. }
  done.
Qed.

Lemma runner_parameters_del_experimental rt :
  runner_parameters (del_experimental rt) = runner_parameters rt.
Proof. unfold del_experimental. by destruct (experimental rt). Qed.

Section Validation.
Context {S : Type} `{!Store S}.

(** C7, as amended.  A definition with a parameter that is required and
    has a default fails the validation the specification describes.  The
    failure is not turned into an outcome: it leaves
    [register_runner_types], so the definition is not persisted, nothing is
    logged for it, and the pass ends there.  The two Windows runners of
    [RUNNER_TYPES] are such definitions; the nine runners before them pass
    the validation. *)
Theorem required_with_default_is_rejected flag rt rest (db : S) k p found update :
  (k, p) ∈ runner_parameters rt →
  required_with_default p →
  skipped flag rt = false →
  lookup_existing db (name rt) = inr (found, update) →
  validate_spec (del_experimental rt) = Some validation_error
  ∧ register_runner_types validate_spec flag (rt :: rest) db
    = MkRun (del_experimental rt :: rest) db [DebugStart] (Some validation_error)
  ∧ ∀ c, validate_spec (del_experimental (run_windows_cmd c)) = Some validation_error
       ∧ validate_spec (del_experimental (run_windows_script c))
         = Some validation_error
       ∧ Forall (λ rt, validate_spec (del_experimental rt) = None)
           (take 9 (RUNNER_TYPES c)).
Proof.
  intros Hin Hbad Hs Hl.
  assert (validate_spec (del_experimental rt) = Some validation_error) as Hv.
  { apply (validate_spec_rejects _ k p); [|done].
    by rewrite runner_parameters_del_experimental. }
  split_and!; [done| |].
  - unfold register_runner_types. simpl.
    unfold register_runner_type. rewrite Hs, Hl, Hv. done.
  - intros c. split_and!; [done..|].
    repeat (constructor; [done|]). constructor.
Qed.
End Validation.

(** * The shared catalogue *)

(** C5: the catalogue does not survive a call unchanged.  A call with the flag
    on deletes the marker of the two experimental runners from the entries of
    [RUNNER_TYPES]; a later call with the flag off then registers them, where
    a call with the flag off on the catalogue as written skips them. *)
Theorem catalog_is_mutated c :
  let r := register_runner_types validate_any true (RUNNER_TYPES c) (∅ : MemStore) in
  run_raised r = None
  ∧ run_catalog r ≠ RUNNER_TYPES c
  ∧ experimental <$> RUNNER_TYPES c = replicate 9 None ++ [Some true; Some true]
  ∧ experimental <$> run_catalog r = replicate 11 None
  ∧ outcomes (run_log (register_runner_types validate_any false (run_catalog r)
                         (∅ : MemStore)))
    = replicate 11 Created
  ∧ outcomes (run_log (register_runner_types validate_any false (RUNNER_TYPES c)
                         (∅ : MemStore)))
    = replicate 9 Created ++ [Skipped; Skipped].
Proof.
  intros r. subst r. split_and!; try (vm_compute; reflexivity).
  intros Heq. apply (f_equal (fmap experimental)) in Heq.
  vm_compute in Heq. discriminate.
Qed.

(** * Concrete runs *)

(** C1 fails on the code: with three definitions of which the second fails
    validation, the exception leaves the call, there is one outcome and not
    three, and the third definition is not persisted. *)
Lemma validation_failure_escapes :
  run_raised run_flawed_second = Some validation_error
  ∧ outcomes (run_log run_flawed_second) = [Created]
  ∧ find_by_name (run_store run_flawed_second) "third" = None
  ∧ run_catalog run_flawed_second = flawed_second.
Proof. vm_compute. done. Qed.

(** C6 fails on the code: a lookup that fails with a store-level error for
    the second of three definitions leaves the call as an exception; the
    second definition gets no outcome and the third is never processed. *)
Lemma lookup_failure_escapes :
  run_raised run_lookup_outage = Some (Exception "store-level error")
  ∧ outcomes (run_log run_lookup_outage) = [Created]
  ∧ find_by_name (backing (run_store run_lookup_outage)) "third" = None.
Proof. vm_compute. done. Qed.

(** C8 fails on the code: under the validation the specification describes,
    a call with the flag on yields nine outcomes for the eleven definitions
    of [RUNNER_TYPES], and run-windows-script is never attempted; and a
    lookup that fails for the second of three definitions leaves one outcome
    for the three. *)
Lemma pass_stops_early :
  length (outcomes (run_log run_catalog_checked)) = 9
  ∧ length (RUNNER_TYPES sample_constants) = 11
  ∧ run_raised run_catalog_checked = Some validation_error
  ∧ experimental <$> run_catalog run_catalog_checked !! 10 = Some (Some true)
  ∧ find_by_name (run_store run_catalog_checked) "run-windows-script" = None
  ∧ length (outcomes (run_log run_lookup_outage)) = 1
  ∧ length three_plain = 3.
Proof. vm_compute. done. Qed.

(** C7 fails on the code: the validation failure of run-windows-cmd yields no
    outcome at all, Failed or other. *)
Lemma validation_failure_is_not_an_outcome :
  outcomes (run_log (register_runner_types validate_spec true
                       [run_windows_cmd sample_constants] (∅ : MemStore))) = []
  ∧ run_raised (register_runner_types validate_spec true
                  [run_windows_cmd sample_constants] (∅ : MemStore))
    = Some validation_error.
Proof. vm_compute. done. Qed.

(** C2 fails on the code: an experimental definition, with the flag on, is
    neither created nor updated when [add_or_update] fails. *)
Lemma experimental_definition_not_registered :
  get_experimental (run_windows_cmd sample_constants) = true
  ∧ outcomes (step_log (register_runner_type validate_any true
                          (run_windows_cmd sample_constants)
                          (outage [] ["run-windows-cmd"]))) = [Failed].
Proof. vm_compute. done. Qed.

(** C4 fails on the code: when a write fails, the second call reports Failed
    again for a definition it does not skip; and when a validation fails, the
    second call stops where the first did and reports nothing for the
    definitions from there on. *)
Lemma second_pass_not_all_updated :
  run_raised run_write_outage = None
  ∧ outcomes (run_log (register_runner_types validate_any false
                         (run_catalog run_write_outage) (run_store run_write_outage)))
    = [Updated; Failed; Updated]
  ∧ outcomes (run_log (register_runner_types validate_spec false
                         (run_catalog run_flawed_second) (run_store run_flawed_second)))
    = [Updated]
  ∧ skipped false <$> flawed_second = [false; false; false].
Proof. vm_compute. done. Qed.


(** When the write of the second of three definitions fails, the pass goes
    on: the third is created and can be looked up. *)
Lemma write_failure_is_absorbed :
  outcomes (run_log run_write_outage) = [Created; Failed; Created]
  ∧ is_Some (find_by_name (backing (run_store run_write_outage)) "third")
  ∧ find_by_name (backing (run_store run_write_outage)) "second" = None.
Proof. vm_compute. split_and!; [done|eauto|done]. Qed.

(** ** The theorems at concrete inputs *)

(** [lookup_error_ends_the_pass] on three definitions and a store in which
    the lookup of the second fails. *)
Lemma lookup_error_ends_the_pass_witness :
  register_runner_types validate_any false
    ([plain "first"] ++ plain "second" :: [plain "third"]) (outage ["second"] [])
  = MkRun ([plain "first"] ++ plain "second" :: [plain "third"])
      (run_store (register_loop validate_any false [plain "first"]
                    (outage ["second"] [])))
      [DebugStart;
       AuditCreated {| db_id := Some 1%positive; db_doc := plain "first" |}]
      (Some (Exception "store-level error")).
Proof.
  etrans.
  - apply (lookup_error_ends_the_pass validate_any false [plain "first"]
             (plain "second") [plain "third"] (outage ["second"] [])
             (Exception "store-level error"));
      [reflexivity..|intros m; discriminate].
  - reflexivity.
Defined.

(** [persistence_failures_are_isolated] on three definitions and a store in
    which the write of the second fails. *)
Lemma persistence_failures_are_isolated_witness :
  register_loop validate_any false [plain "second"; plain "third"]
    (outage [] ["second"])
  = MkRun [plain "second"; plain "third"]
      (run_store (register_loop validate_any false [plain "third"]
                    (outage [] ["second"])))
      [ExceptionUnableToRegister "second" (Exception "StoreError");
       AuditCreated {| db_id := Some 1%positive; db_doc := plain "third" |}]
      None
  ∧ run_raised run_write_outage = None
  ∧ Forall2 (outcome_fits false) three_plain (outcomes (run_log run_write_outage)).
Proof.
  destruct (persistence_failures_are_isolated (S:=FaultyStore) validate_any)
    as [Hstep Hpass].
  split.
  - apply (Hstep false (plain "second") [plain "third"] (outage [] ["second"])
             (outage [] ["second"]) None false (Exception "StoreError"));
      reflexivity.
  - apply (Hpass false three_plain (outage [] ["second"])
             (λ db, lookup_outage db = [])).
    + reflexivity.
    + intros db model Hdb. simpl.
      destruct (bool_decide _); simpl; [done|]. unfold upsert. simpl. done.
    + intros db n e Hdb. simpl. rewrite Hdb. simpl.
      destruct (find_by_name (backing db) n) as [[i d]|]; intros [= <-]. eauto.
    + intros rt _ _. reflexivity.
Defined.

(** [experimental_filter] on run-windows-cmd and the empty store. *)
Lemma experimental_filter_witness :
  register_runner_type validate_any false (run_windows_cmd sample_constants)
    (∅ : MemStore)
  = MkStep (run_windows_cmd sample_constants) ∅ [DebugSkipping "run-windows-cmd"] None
  ∧ outcomes (step_log (register_runner_type validate_any true
                          (run_windows_cmd sample_constants) (∅ : MemStore)))
    = [Created].
Proof.
  destruct (experimental_filter validate_any (run_windows_cmd sample_constants)
              (∅ : MemStore) eq_refl) as (Hoff & _ & Hon & _).
  split; [exact Hoff|].
  rewrite (Hon None false _ _ eq_refl eq_refl eq_refl). reflexivity.
Defined.


(** [required_with_default_is_rejected] on the two Windows runners. *)
Lemma required_with_default_is_rejected_witness :
  validate_spec (del_experimental (run_windows_cmd sample_constants))
  = Some validation_error
  ∧ register_runner_types validate_spec true
      [run_windows_cmd sample_constants; run_windows_script sample_constants]
      (∅ : MemStore)
    = MkRun [del_experimental (run_windows_cmd sample_constants);
             run_windows_script sample_constants]
        ∅ [DebugStart] (Some validation_error).
Proof.
  destruct (required_with_default_is_rejected true
              (run_windows_cmd sample_constants)
              [run_windows_script sample_constants] (∅ : MemStore)
              "username"
              (with_required true (with_default (PyStr "Administrator")
                 (param "Username used to log-in." "string")))
              None false) as (Hv & Hrun & _).
  - apply (list_elem_of_lookup_2 _ 1). reflexivity.
  - split; [reflexivity|]. eexists. reflexivity.
  - reflexivity.
  - reflexivity.
  - split; [exact Hv|exact Hrun].
Defined.

(** The seeded store holds one record, so one record per name. *)
Lemma seeded_names_unique : names_unique seeded.
Proof.
  intros i j d d' Hi Hj _. unfold seeded in *.
  apply lookup_singleton_Some in Hi as [<- _].
  by apply lookup_singleton_Some in Hj as [<- _].
Qed.

(** [identity_is_preserved] on [RUNNER_TYPES] and a store that already holds
    run-local under the id 7. *)
Lemma identity_is_preserved_witness :
  step_log (register_runner_type validate_any false
              (run_local sample_constants) seeded)
  = [AuditUpdated {| db_id := Some 7%positive;
                     db_doc := run_local sample_constants |}]
  ∧ step_store (register_runner_type validate_any false
                  (run_local sample_constants) seeded)
    = {[ 7%positive := run_local sample_constants ]}
  ∧ ∃ d', find_by_name (run_store (register_runner_types validate_any false
                                     (RUNNER_TYPES sample_constants) seeded))
            "run-local" = Some (7%positive, d').
Proof.
  destruct (identity_is_preserved validate_any false) as [Hany Hmem].
  destruct (Hmem seeded "run-local" 7%positive earlier_run_local)
    as [Hstep Hpass]; [vm_compute; reflexivity|].
  split_and!.
  - rewrite (Hany MemStore mem_store seeded (run_local sample_constants)
               {| db_id := Some 7%positive; db_doc := earlier_run_local |}
               eq_refl eq_refl eq_refl).
    reflexivity.
  - rewrite (Hstep (run_local sample_constants) eq_refl eq_refl eq_refl). simpl.
    apply insert_singleton_eq.
  - apply (Hpass (RUNNER_TYPES sample_constants)).
Defined.

(** [one_record_per_name] on [RUNNER_TYPES] and the seeded store. *)
Lemma one_record_per_name_witness :
  names_unique (run_store (register_runner_types validate_any true
                             (RUNNER_TYPES sample_constants) seeded)).
Proof.
  apply (one_record_per_name validate_any true (RUNNER_TYPES sample_constants) seeded).
  exact seeded_names_unique.
Defined.

(** [registering_twice] on [RUNNER_TYPES] and the empty store. *)
Lemma registering_twice_witness :
  outcomes (run_log (register_runner_types validate_any true
                       (run_catalog run_catalog_unchecked)
                       (run_store run_catalog_unchecked)))
  = replicate 11 Updated
  ∧ run_store (register_runner_types validate_any true
                 (run_catalog run_catalog_unchecked)
                 (run_store run_catalog_unchecked))
    = run_store run_catalog_unchecked.
Proof.
  destruct (registering_twice validate_any true (RUNNER_TYPES sample_constants)
              (∅ : MemStore)) as (_ & Hout & Hstore & _).
  - vm_compute. reflexivity.
  - split; [exact Hout|exact Hstore].
Defined.

(** * Further properties of the pass *)

Lemma same_but_marker_strip flag rt : same_but_marker rt (strip flag rt).
Proof.
  unfold strip, same_but_marker. destruct (skipped flag rt).
  { split_and!; auto. }
  unfold del_experimental. destruct (experimental rt) eqn:He; simpl;
    split_and!; auto.
Qed.

Lemma same_but_marker_refl rt : same_but_marker rt rt.
Proof. unfold same_but_marker. split_and!; auto. Qed.

Lemma strip_keeps rt : experimental rt ≠ Some false → strip false rt = rt.
Proof.
  intros He. unfold strip, skipped, get_experimental.
  destruct (experimental rt) as [[|]|] eqn:Hm; simpl; [done|done|].
  by apply del_experimental_absent.
Qed.

Section Composition.
Context {S : Type} `{!Store S}.
Variable validate : RunnerTypeDict → option exn.

Lemma loop_catalog_fixed flag catalog (db : S) :
  Forall (λ rt, strip flag rt = rt) catalog →
  run_catalog (register_loop validate flag catalog db) = catalog.
Proof.
  intros Hall. revert db. induction Hall as [|rt rest Hrt _ IH]; intros db; simpl.
  { done. }
  pose proof (step_entry_strip validate flag rt db) as He. rewrite Hrt in He.
  destruct (step_raised _); simpl; rewrite He; [done|]. by rewrite IH.
Qed.

(** X1.  Registering a catalogue in two parts.  When the call on the first
    part raises, the call on the whole raises the same exception, with the
    same store and log, and leaves the second part untouched.  When it
    returns, the call on the whole is the call on the first part followed by
    the call on the second part from the store the first one left. *)
Theorem registering_in_two_parts flag pre post (db : S) :
  let r1 := register_runner_types validate flag pre db in
  let r := register_runner_types validate flag (pre ++ post) db in
  (∀ e, run_raised r1 = Some e →
     r = MkRun (run_catalog r1 ++ post) (run_store r1) (run_log r1) (Some e))
  ∧ (run_raised r1 = None →
     let r2 := register_runner_types validate flag post (run_store r1) in
     run_catalog r = run_catalog r1 ++ run_catalog r2
     ∧ run_store r = run_store r2
     ∧ run_raised r = run_raised r2
     ∧ outcomes (run_log r) = outcomes (run_log r1) ++ outcomes (run_log r2)).
Proof.
  intros r1 r. subst r1 r. split.
  - unfold register_runner_types. simpl. intros e He.
    rewrite register_loop_app. cbv zeta. rewrite He. simpl.
    by rewrite !app_nil_r.
  - intros Hnone r2. subst r2. rewrite !outcomes_register_runner_types.
    unfold register_runner_types in *. simpl in *.
    rewrite register_loop_app. cbv zeta. rewrite Hnone. simpl.
    by rewrite outcomes_app.
Qed.

Lemma loop_raised_prefix flag catalog (db : S) e :
  let r := register_loop validate flag catalog db in
  run_raised r = Some e →
  ∃ k rt, catalog !! k = Some rt ∧ skipped flag rt = false
    ∧ let r' := register_loop validate flag (take k catalog) db in
      run_raised r' = None
      ∧ run_store r = run_store r'
      ∧ run_log r = run_log r'
      ∧ run_catalog r
        = run_catalog r' ++ del_experimental rt :: drop (Datatypes.S k) catalog.
Proof.
  revert db. induction catalog as [|rt rest IH]; intros db; simpl; [done|].
  destruct (step_cases validate flag rt db)
    as [[Hs Heq]|[[Hs (e' & _ & Heq)]|[Hs (fd & up & db' & rc & _ & _ & _ & _ & Heq)]]];
    rewrite Heq; simpl.
  - intros Hr. destruct (IH db Hr) as (k & rt' & Hk & Hs' & Hnone & Hst & Hlog & Hcat).
    exists (Datatypes.S k), rt'. simpl. rewrite Heq. simpl. rewrite Hnone.
    split_and!; auto; by f_equal.
  - intros [= <-]. exists 0, rt. simpl. rewrite drop_0. done.
  - intros Hr. destruct (IH db' Hr) as (k & rt' & Hk & Hs' & Hnone & Hst & Hlog & Hcat).
    exists (Datatypes.S k), rt'. simpl. rewrite Heq. simpl. rewrite Hnone.
    split_and!; auto; by f_equal.
Qed.

(** X2.  An exception does not undo anything.  When the call raises, it does
    so at a definition in scope; the store and the outcomes are those of the
    call on the definitions before it, which returns; that definition has
    lost its marker and the definitions after it are as they were. *)
Theorem exception_keeps_earlier_work flag catalog (db : S) e :
  let r := register_runner_types validate flag catalog db in
  run_raised r = Some e →
  ∃ k rt, catalog !! k = Some rt ∧ skipped flag rt = false
    ∧ let r' := register_runner_types validate flag (take k catalog) db in
      run_raised r' = None
      ∧ run_store r = run_store r'
      ∧ run_log r' = run_log r ++ [DebugEnd]
      ∧ run_catalog r
        = run_catalog r' ++ del_experimental rt :: drop (Datatypes.S k) catalog.
Proof.
  intros r Hr. subst r. unfold register_runner_types in *. simpl in *.
  destruct (loop_raised_prefix flag catalog db e Hr)
    as (k & rt & Hk & Hs & Hnone & Hst & Hlog & Hcat).
  exists k, rt. rewrite Hr, Hnone, Hlog. simpl. rewrite app_nil_r.
  split_and!; auto.
Qed.

(** X3.  The pass changes nothing of the catalogue but the marker: after any
    call, returning or not, the catalogue has the same entries in the same
    order, each with the name, description, enabled flag, parameters and
    modules it had, and with its marker either as it was or deleted. *)
Theorem only_the_marker_changes flag catalog (db : S) :
  Forall2 same_but_marker catalog
    (run_catalog (register_runner_types validate flag catalog db)).
Proof.
  unfold register_runner_types. simpl.
  revert db. induction catalog as [|rt rest IH]; intros db; simpl; [constructor|].
  pose proof (step_entry_strip validate flag rt db) as He.
  destruct (step_raised _); simpl; rewrite He.
  - constructor; [apply same_but_marker_strip|].
    apply Forall_Forall2_diag, Forall_true, same_but_marker_refl.
  - constructor; [apply same_but_marker_strip|apply IH].
Qed.

(** X4.  A call with the flag off leaves a catalogue in which no marker is
    false exactly as it was, on any store and whether it returns or raises. *)
Theorem flag_off_leaves_the_catalog catalog (db : S) :
  Forall (λ rt, experimental rt ≠ Some false) catalog →
  run_catalog (register_runner_types validate false catalog db) = catalog.
Proof.
  intros Hall. unfold register_runner_types. simpl. apply loop_catalog_fixed.
  eapply Forall_impl; [exact Hall|]. intros rt. apply strip_keeps.
Qed.

(** X5.  A marker that is present and false does not make the call skip the
    definition, and the call deletes it all the same: whatever the flag, a
    call that returns has replaced such an entry by the entry without the
    marker. *)
Theorem false_marker_is_deleted flag catalog (db : S) k rt :
  catalog !! k = Some rt →
  experimental rt = Some false →
  let r := register_runner_types validate flag catalog db in
  run_raised r = None →
  skipped flag rt = false
  ∧ run_catalog r !! k = Some (del_experimental rt)
  ∧ del_experimental rt ≠ rt.
Proof.
  intros Hk He r Hr. subst r.
  unfold register_runner_types in *. simpl in *.
  assert (skipped flag rt = false) as Hs
    by (unfold skipped, get_experimental; by rewrite He).
  split_and!; [done| |].
  - destruct (loop_catalog validate flag catalog db) as (n & _ & Hret).
    rewrite (Hret Hr), list_lookup_fmap, Hk. simpl. f_equal.
    unfold strip. by rewrite Hs.
  - intros Heq. pose proof (experimental_del_experimental rt) as Hnone.
    rewrite Heq, He in Hnone. discriminate.
Qed.

(** X6.  The catalogue changes at most once.  After a call that returns, no
    later call with the same flag changes the catalogue again, on any store
    and whether it returns or raises; and after a returning call with the
    flag on, no later call does, whatever its flag. *)
Theorem catalog_changes_at_most_once flag catalog (db : S) :
  let r := register_runner_types validate flag catalog db in
  run_raised r = None →
  (∀ db2 : S,
     run_catalog (register_runner_types validate flag (run_catalog r) db2)
     = run_catalog r)
  ∧ (flag = true → ∀ flag' (db2 : S),
       run_catalog (register_runner_types validate flag' (run_catalog r) db2)
       = run_catalog r).
Proof.
  intros r Hr. subst r. unfold register_runner_types in *. simpl in *.
  destruct (loop_catalog validate flag catalog db) as (n & _ & Hret).
  rewrite (Hret Hr). split.
  - intros db2. apply loop_catalog_fixed, Forall_fmap, Forall_true.
    intros rt. apply strip_idemp.
  - intros -> flag' db2. apply loop_catalog_fixed, Forall_fmap, Forall_true.
    intros rt. unfold compose. rewrite strip_flag_true.
    unfold strip. destruct (skipped flag' _); [done|apply del_experimental_idemp].
Qed.
End Composition.

Section Scope.
Context {S : Type} `{!Store S}.
Variable validate : RunnerTypeDict → option exn.

Lemma loop_skipped_inert flag catalog (db : S) :
  let r := register_loop validate flag catalog db in
  let r' := register_loop validate flag
              (filter (λ rt, skipped flag rt = false) catalog) db in
  run_store r = run_store r'
  ∧ run_raised r = run_raised r'
  ∧ filter (λ l, is_skip_line l = false) (run_log r) = run_log r'.
Proof.
  revert db. induction catalog as [|rt rest IH]; intros db; simpl; [done|].
  destruct (step_cases validate flag rt db)
    as [[Hs Heq]|[[Hs (e' & _ & Heq)]|[Hs (fd & up & db' & rc & _ & _ & _ & Ho & Heq)]]].
  - rewrite filter_cons_False by (rewrite Hs; discriminate).
    rewrite Heq. simpl. destruct (IH db) as (Hst & Hr & Hlog).
    split_and!; [done..|].
    rewrite filter_cons_False by (simpl; discriminate). done.
  - rewrite filter_cons_True by done. simpl. rewrite Heq. simpl. done.
  - rewrite filter_cons_True by done. simpl. rewrite Heq. simpl.
    destruct (IH db') as (Hst & Hr & Hlog). split_and!; [done..|].
    rewrite filter_cons_True; [by rewrite Hlog|].
    destruct rc; simpl in *; try done; destruct Ho as [?|[?|?]]; discriminate.
Qed.

(** X7.  Skipped definitions are inert.  The call leaves the same store, ends
    the same way and writes the same log lines, but for the skip lines, as the
    call on the catalogue without the definitions it skips; and when it skips
    them all, it returns and leaves the store as it was. *)
Theorem skipped_definitions_are_inert flag catalog (db : S) :
  let r := register_runner_types validate flag catalog db in
  let r' := register_runner_types validate flag
              (filter (λ rt, skipped flag rt = false) catalog) db in
  run_store r = run_store r'
  ∧ run_raised r = run_raised r'
  ∧ filter (λ l, is_skip_line l = false) (run_log r) = run_log r'
  ∧ (Forall (λ rt, skipped flag rt = true) catalog →
     run_store r = db ∧ run_raised r = None
     ∧ run_log r = DebugStart :: (DebugSkipping ∘ name <$> catalog) ++ [DebugEnd]).
Proof.
  intros r r'. subst r r'. unfold register_runner_types. simpl.
  destruct (loop_skipped_inert flag catalog db) as (Hst & Hr & Hlog).
  split_and!; [exact Hst|exact Hr| |].
  - rewrite filter_cons_True by reflexivity.
    rewrite filter_app, Hlog, Hr. f_equal. f_equal.
    clear Hst Hr Hlog.
    destruct (run_raised _); [done|]. by rewrite filter_cons_True by reflexivity.
  - clear Hst Hr Hlog. intros Hall.
    assert (register_loop validate flag catalog db
            = MkRun catalog db (DebugSkipping ∘ name <$> catalog) None) as ->.
    { induction Hall as [|rt rest Hrt _ IH]; simpl; [done|].
      rewrite (step_skipped validate flag rt db Hrt). simpl. by rewrite IH. }
    done.
Qed.

(** X8.  The flag matters for marked definitions only: on a catalogue in
    which no entry carries a true marker, the call does the same, in every
    respect, with the flag on and with the flag off. *)
Theorem flag_matters_for_marked_only flag flag' catalog (db : S) :
  Forall (λ rt, get_experimental rt = false) catalog →
  register_runner_types validate flag catalog db
  = register_runner_types validate flag' catalog db.
Proof.
  intros Hall. unfold register_runner_types.
  by rewrite (loop_unmarked validate flag flag' catalog db Hall).
Qed.

Lemma step_flag_on rt (db : S) :
  register_runner_type validate true rt db
  = register_runner_type validate false (del_experimental rt) db.
Proof.
  unfold register_runner_type.
  by rewrite skipped_flag_true, skipped_del_experimental, del_experimental_idemp,
    name_del_experimental.
Qed.

(** X9.  With the flag on the marker plays no part: the call does to the
    store, writes to the log and ends as the call with the flag off on the
    catalogue with every marker removed, and it skips nothing. *)
Theorem flag_on_ignores_the_marker catalog (db : S) :
  let r := register_runner_types validate true catalog db in
  let r' := register_runner_types validate false (del_experimental <$> catalog) db in
  run_store r = run_store r'
  ∧ run_log r = run_log r'
  ∧ run_raised r = run_raised r'
  ∧ Forall (λ l, is_skip_line l = false) (run_log r).
Proof.
  intros r r'. subst r r'. unfold register_runner_types. simpl.
  assert (∀ db : S,
    let l := register_loop validate true catalog db in
    let l' := register_loop validate false (del_experimental <$> catalog) db in
    run_store l = run_store l' ∧ run_log l = run_log l'
    ∧ run_raised l = run_raised l'
    ∧ Forall (λ l, is_skip_line l = false) (run_log l)) as Hloop.
  { clear db. induction catalog as [|rt rest IH]; intros db; simpl.
    { split_and!; auto. }
    rewrite <- step_flag_on.
    destruct (step_cases validate true rt db)
      as [[Hs Heq]|[[Hs (e' & _ & Heq)]|[Hs (fd & up & db' & rc & _ & _ & _ & Ho & Heq)]]].
    - by rewrite skipped_flag_true in Hs.
    - rewrite Heq. simpl. split_and!; auto.
    - rewrite Heq. simpl. destruct (IH db') as (Hst & Hlog & Hr & Hno).
      split_and!; [done|by f_equal|done|].
      constructor; [|done].
      destruct rc; simpl in *; try done; destruct Ho as [?|[?|?]]; discriminate. }
  destruct (Hloop db) as (Hst & Hlog & Hr & Hno). cbv zeta in *.
  split_and!; [exact Hst|by rewrite Hlog, Hr|exact Hr|].
  constructor; [done|]. apply Forall_app. split; [exact Hno|].
  clear. destruct (run_raised _); by repeat constructor.
Qed.

(** X10.  The validation is consulted for stripped definitions in scope only:
    two validations that agree on the entries in scope, with the marker
    removed, give the same call in every respect, whatever they say of the
    skipped definitions and of the entries as written. *)
Theorem validation_sees_stripped_definitions_only validate' flag catalog (db : S) :
  (∀ rt, rt ∈ catalog → skipped flag rt = false →
     validate (del_experimental rt) = validate' (del_experimental rt)) →
  register_runner_types validate flag catalog db
  = register_runner_types validate' flag catalog db.
Proof.
  intros Hagree. unfold register_runner_types.
  assert (register_loop validate flag catalog db
          = register_loop validate' flag catalog db) as ->; [|done].
  revert db. induction catalog as [|rt rest IH]; intros db; simpl; [done|].
  assert (register_runner_type validate flag rt db
          = register_runner_type validate' flag rt db) as ->.
  { unfold register_runner_type. destruct (skipped flag rt) eqn:Hs; [done|].
    by rewrite (Hagree rt (list_elem_of_here _ _) Hs). }
  destruct (step_raised _); [done|].
  rewrite IH; [done|]. intros rt' Hin. apply Hagree. by right.
Qed.

Lemma loop_lines flag catalog (db : S) :
  let r := register_loop validate flag catalog db in
  ∃ k, Forall2 (line_fits flag) (take k catalog) (run_log r)
    ∧ (run_raised r = None → k = length catalog)
    ∧ (is_Some (run_raised r) → k < length catalog).
Proof.
  revert db. induction catalog as [|rt rest IH]; intros db; simpl.
  { exists 0. split_and!; [constructor|done|by intros [? ?]]. }
  assert (∀ db' update rc,
            persist db (del_experimental rt) db' update = rc →
            skipped flag rt = false →
            Forall (line_fits flag rt) rc.2 ∧ length rc.2 = 1) as Hpersist.
  { intros model update rc <- Hs. unfold persist.
    destruct (RunnerType_add_or_update db model) as [db' [e|saved]]; simpl.
    - split; [|done]. constructor; [|constructor]. simpl.
      by rewrite name_del_experimental.
    - split; [|done]. constructor; [|constructor]. by destruct update. }
  destruct (step_cases validate flag rt db)
    as [[Hs Heq]|[[Hs (e' & _ & Heq)]|[Hs (fd & up & db' & rc & _ & _ & Hp & _ & Heq)]]];
    rewrite Heq; simpl.
  - destruct (IH db) as (k & Hall & Hnone & Hsome).
    exists (Datatypes.S k). simpl. split_and!.
    + by constructor.
    + by intros ->%Hnone.
    + intros H%Hsome. lia.
  - exists 0. simpl. split_and!; [constructor|done|lia].
  - destruct (IH db') as (k & Hall & Hnone & Hsome).
    destruct (Hpersist _ _ _ Hp Hs) as [Hfit _]. simpl in Hfit.
    apply Forall_cons in Hfit as [Hfit _].
    exists (Datatypes.S k). simpl. split_and!.
    + by constructor.
    + by intros ->%Hnone.
    + intros H%Hsome. lia.
Qed.

(** X11.  The log of a call is the start line, then one line for each
    definition the call got through, in catalogue order, then the end line
    exactly when the call returns.  The line of a definition is the skip line
    with its name when it is skipped, and an audit line, or the failure line
    with its name, when it is in scope. *)
Theorem log_follows_the_catalog flag catalog (db : S) :
  let r := register_runner_types validate flag catalog db in
  ∃ k lines,
    run_log r = DebugStart :: lines
                  ++ match run_raised r with None => [DebugEnd] | Some _ => [] end
    ∧ Forall2 (line_fits flag) (take k catalog) lines
    ∧ (run_raised r = None → k = length catalog)
    ∧ (is_Some (run_raised r) → k < length catalog).
Proof.
  intros r. subst r. unfold register_runner_types. simpl.
  destruct (loop_lines flag catalog db) as (k & Hall & Hnone & Hsome).
  exists k, (run_log (register_loop validate flag catalog db)). done.
Qed.
End Scope.

Section Writes.
Context {S : Type} `{!Store S}.
Variable validate : RunnerTypeDict → option exn.

Lemma recorded_step flag rt (db : S) tr :
  let s := register_runner_type validate flag rt db in
  let s' := register_runner_type validate flag rt (MkRecorded db tr) in
  step_entry s' = step_entry s
  ∧ step_log s' = step_log s
  ∧ step_raised s' = step_raised s
  ∧ inner (step_store s') = step_store s
  ∧ ∃ w, written (step_store s') = tr ++ w
         ∧ (step_raised s = None → db_doc <$> w = docs flag [rt])
         ∧ (is_Some (step_raised s) → w = []).
Proof.
  unfold register_runner_type, lookup_existing, persist, docs. simpl.
  destruct (skipped flag rt) eqn:Hs; simpl.
  { repeat (split; [done|]). exists []. rewrite app_nil_r.
    rewrite filter_cons_False by (rewrite Hs; discriminate).
    split_and!; [done|done|by intros [? ?]]. }
  rewrite filter_cons_True by done. simpl.
  destruct (get_runnertype_by_name db (name rt)) as [[m|m]|found]; simpl.
  - destruct (validate (del_experimental rt)) as [e|]; simpl.
    { repeat (split; [done|]). exists []. by rewrite app_nil_r. }
    destruct (RunnerType_add_or_update db _) as [db' [e|saved]]; simpl;
      (repeat (split; [done|]); eexists; split_and!; [done|done|by intros [? ?]]).
  - repeat (split; [done|]). exists []. by rewrite app_nil_r.
  - destruct (validate (del_experimental rt)) as [e|]; simpl.
    { repeat (split; [done|]). exists []. by rewrite app_nil_r. }
    destruct (RunnerType_add_or_update db _) as [db' [e|saved]]; simpl;
      (repeat (split; [done|]); eexists; split_and!; [done|done|by intros [? ?]]).
Qed.

Lemma recorded_loop flag catalog (db : S) tr :
  let r := register_loop validate flag catalog db in
  let r' := register_loop validate flag catalog (MkRecorded db tr) in
  run_catalog r' = run_catalog r
  ∧ run_log r' = run_log r
  ∧ run_raised r' = run_raised r
  ∧ inner (run_store r') = run_store r
  ∧ ∃ k w, written (run_store r') = tr ++ w
           ∧ db_doc <$> w = docs flag (take k catalog)
           ∧ (run_raised r = None → k = length catalog)
           ∧ (is_Some (run_raised r) → k < length catalog).
Proof.
  revert db tr. induction catalog as [|rt rest IH]; intros db tr; simpl.
  { repeat (split; [done|]). exists 0, []. rewrite app_nil_r.
    split_and!; [done|done|done|by intros [? ?]]. }
  destruct (recorded_step flag rt db tr)
    as (He & Hl & Hr & Hi & w & Hw & Hok & Hbad).
  cbv zeta in *. rewrite Hr.
  destruct (step_raised (register_runner_type validate flag rt db)) as [e|] eqn:Hraised;
    simpl.
  - rewrite He, Hl, Hi. repeat (split; [done|]).
    exists 0, []. rewrite Hw, (Hbad (mk_is_Some _ _ eq_refl)).
    split_and!; [done|done|done|lia].
  - destruct (step_store (register_runner_type validate flag rt (MkRecorded db tr)))
      as [db1 tr1] eqn:Hstore. simpl in Hi, Hw. subst db1 tr1.
    destruct (IH (step_store (register_runner_type validate flag rt db)) (tr ++ w))
      as (Hc & Hlog & Hrr & Hin & k & w' & Hw' & Hdocs & Hnone & Hsome).
    rewrite He, Hl, Hc, Hlog, Hrr, Hin. repeat (split; [done|]).
    exists (Datatypes.S k), (w ++ w'). rewrite Hw', app_assoc.
    split; [done|]. split; [|split].
    + simpl. rewrite fmap_app, (Hok eq_refl), Hdocs.
      rewrite (docs_cons flag rt (take k rest)), (docs_cons flag rt []).
      by destruct (skipped flag rt).
    + intros Hn. by rewrite (Hnone Hn).
    + intros Hs. specialize (Hsome Hs). lia.
Qed.

(** X12.  What the pass hands to the store.  Recording the models handed to
    [add_or_update] changes nothing in the call.  The documents recorded are
    the entries of the definitions in scope that the call got through, with
    the marker removed, in catalogue order and once each: nothing is written
    for a skipped definition or for the definition at which the call raises,
    nothing is written twice, and no document written has an experimental
    field. *)
Theorem writes_are_the_definitions_in_scope flag catalog (db : S) :
  let r := register_runner_types validate flag catalog db in
  let r' := register_runner_types validate flag catalog (MkRecorded db []) in
  run_catalog r' = run_catalog r
  ∧ run_log r' = run_log r
  ∧ run_raised r' = run_raised r
  ∧ inner (run_store r') = run_store r
  ∧ ∃ k, db_doc <$> written (run_store r') = docs flag (take k catalog)
         ∧ (run_raised r = None → k = length catalog)
         ∧ (is_Some (run_raised r) → k < length catalog)
         ∧ Forall (λ m, experimental (db_doc m) = None) (written (run_store r')).
Proof.
  intros r r'. subst r r'. unfold register_runner_types. simpl.
  destruct (recorded_loop flag catalog db [])
    as (Hc & Hlog & Hr & Hin & k & w & Hw & Hdocs & Hnone & Hsome).
  cbv zeta in *. rewrite Hc, Hlog, Hr, Hin. repeat (split; [done|]).
  exists k. simpl in Hw. rewrite Hw. repeat (split; [done|]).
  assert (Forall (λ d, experimental d = None) (db_doc <$> w)) as Hall.
  { rewrite Hdocs. unfold docs. apply Forall_fmap, Forall_true. intros rt.
    apply experimental_del_experimental. }
  apply Forall_fmap in Hall. exact Hall.
Qed.
End Writes.

(** * The catalogue as written *)

(** X13.  Every entry of [RUNNER_TYPES] is enabled and names a runner module;
    within an entry the parameter names are pairwise distinct, every
    parameter type is one of string, integer, boolean and object, every
    default has the type declared and every immutable parameter has a
    default.  The marker is on the last two entries, the Windows runners,
    and is true there, and only mistral-v2 has a query module. *)
Theorem catalog_is_well_formed c :
  Forall (λ rt, well_formed_runner rt = true) (RUNNER_TYPES c)
  ∧ experimental <$> RUNNER_TYPES c = replicate 9 None ++ [Some true; Some true]
  ∧ name <$> filter (λ rt, get_experimental rt = true) (RUNNER_TYPES c)
    = ["run-windows-cmd"; "run-windows-script"]
  ∧ name <$> filter (λ rt, is_Some (query_module rt)) (RUNNER_TYPES c)
    = ["mistral-v2"].
Proof.
  split_and!; [|vm_compute; reflexivity..].
  apply Forall_forall. intros rt Hin.
  repeat (apply elem_of_cons in Hin as [->|Hin]; [vm_compute; reflexivity|]).
  by apply elem_of_nil in Hin.
Qed.

(** * The further properties at concrete inputs *)

(** [registering_in_two_parts] on three definitions of which the second fails
    validation, split after the second and split after the first. *)
Lemma registering_in_two_parts_witness :
  register_runner_types validate_spec false
    ([plain "first"; flawed "second"] ++ [plain "third"]) (∅ : MemStore)
  = MkRun ([plain "first"; flawed "second"] ++ [plain "third"])
      {[ 1%positive := plain "first" ]}
      [DebugStart;
       AuditCreated {| db_id := Some 1%positive; db_doc := plain "first" |}]
      (Some validation_error)
  ∧ run_raised (register_runner_types validate_spec false
                  ([plain "first"] ++ [flawed "second"; plain "third"])
                  (∅ : MemStore))
    = Some validation_error.
Proof.
  split.
  - destruct (registering_in_two_parts validate_spec false
                [plain "first"; flawed "second"] [plain "third"] (∅ : MemStore))
      as [Hraise _].
    etrans; [apply (Hraise validation_error); reflexivity|]. reflexivity.
  - destruct (registering_in_two_parts validate_spec false
                [plain "first"] [flawed "second"; plain "third"] (∅ : MemStore))
      as [_ Hreturn].
    destruct (Hreturn eq_refl) as (_ & _ & Hr & _).
    etrans; [exact Hr|]. reflexivity.
Defined.

(** [exception_keeps_earlier_work] on [RUNNER_TYPES] under the validation
    the specification describes. *)
Lemma exception_keeps_earlier_work_witness :
  ∃ k rt, RUNNER_TYPES sample_constants !! k = Some rt
    ∧ skipped true rt = false
    ∧ run_raised (register_runner_types validate_spec true
                    (take k (RUNNER_TYPES sample_constants)) (∅ : MemStore)) = None
    ∧ run_store run_catalog_checked
      = run_store (register_runner_types validate_spec true
                     (take k (RUNNER_TYPES sample_constants)) (∅ : MemStore)).
Proof.
  destruct (exception_keeps_earlier_work validate_spec true
              (RUNNER_TYPES sample_constants) (∅ : MemStore) validation_error)
    as (k & rt & Hk & Hs & Hnone & Hst & _).
  - vm_compute. reflexivity.
  - exists k, rt. split_and!; [exact Hk|exact Hs|exact Hnone|exact Hst].
Defined.

(** [flag_off_leaves_the_catalog] on [RUNNER_TYPES]. *)
Lemma flag_off_leaves_the_catalog_witness :
  run_catalog (register_runner_types validate_spec false
                 (RUNNER_TYPES sample_constants) (∅ : MemStore))
  = RUNNER_TYPES sample_constants.
Proof.
  apply (flag_off_leaves_the_catalog validate_spec (RUNNER_TYPES sample_constants)).
  apply Forall_forall. intros rt Hin.
  repeat (apply elem_of_cons in Hin as [->|Hin]; [vm_compute; congruence|]).
  by apply elem_of_nil in Hin.
Defined.

(** [false_marker_is_deleted] on a catalogue whose first entry is marked
    false, with the flag off. *)
Lemma false_marker_is_deleted_witness :
  skipped false (with_experimental false (plain "first")) = false
  ∧ run_catalog (register_runner_types validate_any false falsely_marked
                   (∅ : MemStore)) !! 0
    = Some (del_experimental (with_experimental false (plain "first")))
  ∧ del_experimental (with_experimental false (plain "first"))
    ≠ with_experimental false (plain "first").
Proof.
  apply (false_marker_is_deleted validate_any false falsely_marked (∅ : MemStore)
           0 (with_experimental false (plain "first"))); reflexivity.
Defined.

(** [catalog_changes_at_most_once] on [RUNNER_TYPES] with the flag on. *)
Lemma catalog_changes_at_most_once_witness :
  run_catalog (register_runner_types validate_any false
                 (run_catalog run_catalog_unchecked) (∅ : MemStore))
  = run_catalog run_catalog_unchecked.
Proof.
  destruct (catalog_changes_at_most_once validate_any true
              (RUNNER_TYPES sample_constants) (∅ : MemStore)) as [_ Hany].
  - vm_compute. reflexivity.
  - apply (Hany eq_refl false ∅).
Defined.

(** [skipped_definitions_are_inert] on the two Windows runners with the flag
    off. *)
Lemma skipped_definitions_are_inert_witness :
  run_store (register_runner_types validate_spec false
               [run_windows_cmd sample_constants;
                run_windows_script sample_constants] seeded) = seeded
  ∧ run_raised (register_runner_types validate_spec false
                  [run_windows_cmd sample_constants;
                   run_windows_script sample_constants] seeded) = None.
Proof.
  destruct (skipped_definitions_are_inert validate_spec false
              [run_windows_cmd sample_constants;
               run_windows_script sample_constants] seeded)
    as (_ & _ & _ & Hall).
  destruct Hall as (Hst & Hr & _); [by repeat constructor|].
  split; [exact Hst|exact Hr].
Defined.

(** [flag_matters_for_marked_only] on the nine runners of [RUNNER_TYPES]
    that are not experimental. *)
Lemma flag_matters_for_marked_only_witness :
  register_runner_types validate_any true
    (take 9 (RUNNER_TYPES sample_constants)) (∅ : MemStore)
  = register_runner_types validate_any false
      (take 9 (RUNNER_TYPES sample_constants)) (∅ : MemStore).
Proof.
  apply (flag_matters_for_marked_only validate_any true false
           (take 9 (RUNNER_TYPES sample_constants)) (∅ : MemStore)).
  apply Forall_forall. intros rt Hin. simpl in Hin.
  repeat (apply elem_of_cons in Hin as [->|Hin]; [reflexivity|]).
  by apply elem_of_nil in Hin.
Defined.

(** [validation_sees_stripped_definitions_only] on two validations that
    differ on the flawed definition only, and a catalogue without it. *)
Lemma validation_sees_stripped_definitions_only_witness :
  register_runner_types validate_spec false three_plain (∅ : MemStore)
  = register_runner_types validate_any false three_plain (∅ : MemStore)
  ∧ validate_spec (flawed "second") ≠ validate_any (flawed "second").
Proof.
  split; [|vm_compute; congruence].
  apply (validation_sees_stripped_definitions_only validate_spec validate_any
           false three_plain (∅ : MemStore)).
  intros rt Hin _. unfold three_plain in Hin.
  repeat (apply elem_of_cons in Hin as [->|Hin]; [reflexivity|]).
  by apply elem_of_nil in Hin.
Defined.
